(** * simple-blog-app: the Express demo server of [example-nodejs-app/app.js]

    The development follows the source file from top to bottom:

    - [JS]: the pieces of the JavaScript runtime the file relies on: values
      and truthiness, the [||] operator, template-literal conversion,
      [Date.prototype.toISOString] and a validator of the date-time format,
      the rounding of a number to a double and the reading of a string as
      a number;
    - [JSON]: the documents [res.json] sends;
    - [Node]: the process, with its environment, its clocks and its files,
      [process.uptime()] and the endpoint [listen] opens;
    - [Express]: requests, responses and the middleware chain, as far as
      [app.js] uses them: [cors()], [express.json()], [express.static],
      [app.get] and the default handlers;
    - [App]: the module itself: the constant [PORT], the three middleware,
      the three routes, [app.listen], and the life of the process;
    - the properties of the service.

    Times are integers (milliseconds since the epoch for the wall clock,
    nanoseconds for the monotonic clock). A number is the rational it
    stands for; the numbers the program computes are rounded to doubles
    as the engine rounds them. *)

From Stdlib Require Import ZArith QArith Qround Qpower Lia Lqa Ascii String.
From stdpp Require Import gmap strings list.

Close Scope Q_scope.
Set Warnings "-register-all".
Local Open Scope Z_scope.

(* ===================================================================== *)
(** * The JavaScript runtime *)
(* ===================================================================== *)

Module JS.

(** ** Values, truthiness and [||] *)

(** The values [app.js] computes with: [undefined] (a missing property of
    [process.env]), strings (every value of [process.env] is a string) and
    the integer literal [3000]. *)
Inductive Value :=
| Undefined
| Str (s : string)
| Num (n : Z).

#[global] Instance Value_eq_dec : EqDecision Value.
Proof. solve_decision. Defined.

(** ToBoolean: [undefined], the empty string and [0] are falsy. *)
Definition truthy (v : Value) : bool :=
  match v with
  | Undefined => false
  | Str s => negb (String.eqb s "")
  | Num n => negb (n =? 0)
  end.

(** [a || b]: the left operand when it is truthy, otherwise the right one. *)
Definition or (a b : Value) : Value := if truthy a then a else b.

(** [obj[key]] on [process.env]. *)
Definition prop (env : gmap string string) (key : string) : Value :=
  match env !! key with
  | Some s => Str s
  | None => Undefined
  end.

(** ** Decimal digits *)

Definition digit (d : Z) : ascii := ascii_of_nat (48 + Z.to_nat d).

Definition digit_val (c : ascii) : option Z :=
  let n := Z.of_nat (nat_of_ascii c) in
  if (48 <=? n) && (n <=? 57) then Some (n - 48) else None.

(** Fixed-width, zero-padded decimal numbers, written in front of [k]. *)
Definition pad2 (n : Z) (k : string) : string :=
  String (digit (n / 10)) (String (digit (n mod 10)) k).
Definition pad3 (n : Z) (k : string) : string :=
  String (digit (n / 100)) (pad2 (n mod 100) k).
Definition pad4 (n : Z) (k : string) : string :=
  pad2 (n / 100) (pad2 (n mod 100) k).
Definition pad6 (n : Z) (k : string) : string :=
  pad2 (n / 10000) (pad4 (n mod 10000) k).

(** Number::toString for integers, as a template literal applies it. *)
Fixpoint decimal_fuel (fuel : nat) (n : Z) (k : string) : string :=
  match fuel with
  | O => k
  | S f =>
      let k' := String (digit (n mod 10)) k in
      if n <? 10 then k' else decimal_fuel f (n / 10) k'
  end.

Definition decimal (n : Z) : string :=
  if n <? 0 then String "-" (decimal_fuel (S (Z.to_nat (Z.log2 (- n)))) (- n) "")
  else decimal_fuel (S (Z.to_nat (Z.log2 n))) n "".

(** [`${v}`]: ToString of a value inside a template literal. *)
Definition to_string (v : Value) : string :=
  match v with
  | Undefined => "undefined"
  | Str s => s
  | Num n => decimal n
  end.

(** ToNumber of a string of decimal digits; other strings are not read. *)
Fixpoint decimal_digits (acc : Z) (s : string) : option Z :=
  match s with
  | EmptyString => Some acc
  | String c k =>
      match digit_val c with
      | Some d => decimal_digits (10 * acc + d) k
      | None => None
      end
  end.

Definition decimal_value (s : string) : option Z :=
  match s with
  | EmptyString => None
  | _ => decimal_digits 0 s
  end.

(** A string that is a decimal number. *)
Definition numeric (s : string) : bool :=
  match decimal_value s with Some _ => true | None => false end.

(** A string of decimal digits, and of one at least. *)
Inductive digits_only : string -> Prop :=
| digits_one d : 0 <= d <= 9 -> digits_only (String (digit d) "")
| digits_more d k : 0 <= d <= 9 -> digits_only k -> digits_only (String (digit d) k).

(** [s.includes(sub)] *)
Fixpoint includes (s sub : string) : bool :=
  String.prefix sub s ||
  match s with
  | EmptyString => false
  | String _ k => includes k sub
  end.

(** ** Dates (ECMA-262, Date objects)

    A time value is a number of milliseconds since 1970-01-01T00:00:00Z;
    a valid one is at most 8.64e15 in absolute value. *)

Module Date.

Definition msPerDay : Z := 86400000.
Definition maxTime : Z := 8640000000000000.

Definition valid_time (t : Z) : Prop := - maxTime <= t <= maxTime.

Definition Day (t : Z) : Z := t / msPerDay.
Definition TimeWithinDay (t : Z) : Z := t mod msPerDay.

Definition leap (y : Z) : bool :=
  ((y mod 4 =? 0) && negb (y mod 100 =? 0)) || (y mod 400 =? 0).

Definition DaysInYear (y : Z) : Z := if leap y then 366 else 365.

Definition DayFromYear (y : Z) : Z :=
  365 * (y - 1970) + (y - 1969) / 4 - (y - 1901) / 100 + (y - 1601) / 400.

(** The year of day [d]: the largest [y] with [DayFromYear y <= d]. It is
    found from the mean year length and corrected by at most one. *)
Definition YearFromDay (d : Z) : Z :=
  let y := 1970 + (400 * d) / 146097 in
  if d <? DayFromYear y then y - 1
  else if DayFromYear (y + 1) <=? d then y + 1
  else y.

Definition YearFromTime (t : Z) : Z := YearFromDay (Day t).

Definition DayWithinYear (t : Z) : Z := Day t - DayFromYear (YearFromTime t).

Definition InLeapYear (t : Z) : Z := if leap (YearFromTime t) then 1 else 0.

(** Month (0 = January) and day of the month, from the day within the year
    [d] and the leap-year flag [l]. *)
Definition month_of (d l : Z) : Z :=
  if d <? 31 then 0
  else if d <? 59 + l then 1
  else if d <? 90 + l then 2
  else if d <? 120 + l then 3
  else if d <? 151 + l then 4
  else if d <? 181 + l then 5
  else if d <? 212 + l then 6
  else if d <? 243 + l then 7
  else if d <? 273 + l then 8
  else if d <? 304 + l then 9
  else if d <? 334 + l then 10
  else 11.

Definition date_of (d l : Z) : Z :=
  match month_of d l with
  | 0 => d + 1
  | 1 => d - 30
  | 2 => d - 58 - l
  | 3 => d - 89 - l
  | 4 => d - 119 - l
  | 5 => d - 150 - l
  | 6 => d - 180 - l
  | 7 => d - 211 - l
  | 8 => d - 242 - l
  | 9 => d - 272 - l
  | 10 => d - 303 - l
  | _ => d - 333 - l
  end.

Definition MonthFromTime (t : Z) : Z := month_of (DayWithinYear t) (InLeapYear t).
Definition DateFromTime (t : Z) : Z := date_of (DayWithinYear t) (InLeapYear t).
Definition HourFromTime (t : Z) : Z := TimeWithinDay t / 3600000.
Definition MinFromTime (t : Z) : Z := (TimeWithinDay t / 60000) mod 60.
Definition SecFromTime (t : Z) : Z := (TimeWithinDay t / 1000) mod 60.
Definition msFromTime (t : Z) : Z := TimeWithinDay t mod 1000.

(** The fields of a date-time string. [month] is 1-based here, as written. *)
Record fields := Fields {
  year : Z; month : Z; day : Z;
  hour : Z; minute : Z; second : Z; milli : Z
}.

Definition fields_of (t : Z) : fields :=
  {| year := YearFromTime t; month := MonthFromTime t + 1; day := DateFromTime t;
     hour := HourFromTime t; minute := MinFromTime t; second := SecFromTime t;
     milli := msFromTime t |}.

(** Years 0 to 9999 are written with four digits, the others with a sign
    and six digits. *)
Definition format_year (y : Z) (k : string) : string :=
  if (0 <=? y) && (y <=? 9999) then pad4 y k
  else if y <? 0 then String "-" (pad6 (- y) k)
  else String "+" (pad6 y k).

Definition format (f : fields) : string :=
  format_year (year f)
    (String "-" (pad2 (month f)
    (String "-" (pad2 (day f)
    (String "T" (pad2 (hour f)
    (String ":" (pad2 (minute f)
    (String ":" (pad2 (second f)
    (String "." (pad3 (milli f) "Z")))))))))))).

(** [new Date(t).toISOString()] *)
Definition toISOString (t : Z) : string := format (fields_of t).

(** *** Reading a date-time string back *)

Definition expect (c : ascii) (s : string) : option string :=
  match s with
  | String c' k => if Ascii.eqb c c' then Some k else None
  | EmptyString => None
  end.

(** Exactly [n] decimal digits. *)
Fixpoint digits (n : nat) (acc : Z) (s : string) : option (Z * string) :=
  match n with
  | O => Some (acc, s)
  | S n' =>
      match s with
      | String c k =>
          match digit_val c with
          | Some d => digits n' (10 * acc + d) k
          | None => None
          end
      | EmptyString => None
      end
  end.

Definition parse_year (s : string) : option (Z * string) :=
  match s with
  | String c k =>
      if Ascii.eqb c "+" then digits 6 0 k
      else if Ascii.eqb c "-" then
        match digits 6 0 k with
        | Some (y, k') => if y =? 0 then None else Some (- y, k')
        | None => None
        end
      else digits 4 0 s
  | EmptyString => None
  end.

Definition parse (s : string) : option fields :=
  '(y, s) ← parse_year s;
  s ← expect "-" s;
  '(mo, s) ← digits 2 0 s;
  s ← expect "-" s;
  '(d, s) ← digits 2 0 s;
  s ← expect "T" s;
  '(h, s) ← digits 2 0 s;
  s ← expect ":" s;
  '(mi, s) ← digits 2 0 s;
  s ← expect ":" s;
  '(se, s) ← digits 2 0 s;
  s ← expect "." s;
  '(ms, s) ← digits 3 0 s;
  s ← expect "Z" s;
  if String.eqb s "" then Some (Fields y mo d h mi se ms) else None.

Definition days_in_month (y m : Z) : Z :=
  match m with
  | 2 => if leap y then 29 else 28
  | 4 | 6 | 9 | 11 => 30
  | _ => 31
  end.

(** A calendar date and a time of day that exist. *)
Definition valid_fields (f : fields) : bool :=
  (1 <=? month f) && (month f <=? 12) &&
  (1 <=? day f) && (day f <=? days_in_month (year f) (month f)) &&
  (0 <=? hour f) && (hour f <=? 23) &&
  (0 <=? minute f) && (minute f <=? 59) &&
  (0 <=? second f) && (second f <=? 59) &&
  (0 <=? milli f) && (milli f <=? 999).

(** Fields that fit the widths of the format. *)
Definition printable (f : fields) : Prop :=
  -999999 <= year f <= 999999 /\
  0 <= month f < 100 /\ 0 <= day f < 100 /\ 0 <= hour f < 100 /\
  0 <= minute f < 100 /\ 0 <= second f < 100 /\ 0 <= milli f < 1000.

(** An ISO-8601 date-time string in the form ECMAScript writes:
    [YYYY-MM-DDTHH:mm:ss.sssZ] or [±YYYYYY-MM-DDTHH:mm:ss.sssZ], naming a
    date and a time that exist. *)
Definition is_iso8601 (s : string) : bool :=
  match parse s with
  | Some f => valid_fields f
  | None => false
  end.

End Date.

(** ** Numbers (IEEE 754 binary64)

    A finite double is the rational it stands for. [round] gives the double
    nearest to a rational, the one with the even significand when two are
    equally near; the significand has 53 bits and the least exponent is
    -1074, so that what is too small becomes 0. Rationals of magnitude
    2^1024 and more, which no double is near, do not occur below. *)

Module Double.

Local Open Scope Q_scope.

(** The integer part of the binary logarithm of [x], for [0 < x]. *)
Definition exponent (x : Q) : Z :=
  let e0 := (Z.log2 (Qnum x) - Z.log2 (Zpos (Qden x)))%Z in
  if Qle_bool (2 ^ e0) x then e0 else (e0 - 1)%Z.

(** The nearest integer, the even one of two that are equally near. *)
Definition nearest_even (x : Q) : Z :=
  let f := Qfloor x in
  match Qcompare (x - inject_Z f) (1 # 2) with
  | Lt => f
  | Gt => (f + 1)%Z
  | Eq => if Z.even f then f else (f + 1)%Z
  end.

(** The distance between the doubles around [x]. *)
Definition ulp (x : Q) : Q := 2 ^ Z.max (exponent x - 52) (-1074).

Definition round_pos (x : Q) : Q := inject_Z (nearest_even (x / ulp x)) * ulp x.

Definition round (x : Q) : Q :=
  match Qnum x with
  | Z0 => 0
  | Zpos _ => round_pos x
  | Zneg _ => - round_pos (- x)
  end.

(** Conversion of an integer, and division. *)
Definition of_Z (n : Z) : Q := round (inject_Z n).
Definition div (a b : Q) : Q := round (a / b).

Definition is_integer (x : Q) : bool := Qeq_bool x (inject_Z (Qfloor x)).

End Double.

(** ** ToNumber of a string (ECMA-262, StringToNumber)

    Strings are sequences of bytes, a character outside ASCII being its
    UTF-8 encoding. *)

Module Number.

(** What a string reads as: not a number, an infinity, or the number
    [± digits × 10 ^ exponent], which the engine then rounds to a double. *)
Inductive t :=
| NaN
| Infinity (negative : bool)
| Decimal (negative : bool) (digits : Z) (exponent : Z).

Definition bytes (codes : list nat) : string :=
  fold_right (λ n s, String (ascii_of_nat n) s) EmptyString codes.

(** White space and line terminators: TAB, LF, VT, FF, CR, SP, U+00A0,
    U+1680, U+2000 to U+200A, U+2028, U+2029, U+202F, U+205F, U+3000,
    U+FEFF. *)
Definition white_space : list string :=
  bytes <$> [ [9]; [10]; [11]; [12]; [13]; [32]; [194; 160]; [225; 154; 128];
              [226; 128; 128]; [226; 128; 129]; [226; 128; 130]; [226; 128; 131];
              [226; 128; 132]; [226; 128; 133]; [226; 128; 134]; [226; 128; 135];
              [226; 128; 136]; [226; 128; 137]; [226; 128; 138];
              [226; 128; 168]; [226; 128; 169]; [226; 128; 175]; [226; 129; 159];
              [227; 128; 128]; [239; 187; 191] ]%nat.

Fixpoint drop_prefix (w s : string) : option string :=
  match w with
  | EmptyString => Some s
  | String c w' =>
      match s with
      | String d s' => if Ascii.eqb c d then drop_prefix w' s' else None
      | EmptyString => None
      end
  end.

Fixpoint drop_any (ws : list string) (s : string) : option string :=
  match ws with
  | [] => None
  | w :: rest =>
      match drop_prefix w s with
      | Some r => Some r
      | None => drop_any rest s
      end
  end.

Fixpoint strip_left (fuel : nat) (ws : list string) (s : string) : string :=
  match fuel with
  | O => s
  | S f =>
      match drop_any ws s with
      | Some r => strip_left f ws r
      | None => s
      end
  end.

Fixpoint reverse_onto (s acc : string) : string :=
  match s with
  | EmptyString => acc
  | String c k => reverse_onto k (String c acc)
  end.

Definition reverse (s : string) : string := reverse_onto s EmptyString.

(** [s.trim()] *)
Definition trim (s : string) : string :=
  let l := strip_left (String.length s) white_space s in
  reverse (strip_left (String.length l) (reverse <$> white_space) (reverse l)).

(** The value of a digit in a base up to 16. *)
Definition digit_in (base : Z) (c : ascii) : option Z :=
  let n := Z.of_nat (nat_of_ascii c) in
  let v := if (48 <=? n) && (n <=? 57) then n - 48
           else if (97 <=? n) && (n <=? 102) then n - 87
           else if (65 <=? n) && (n <=? 70) then n - 55
           else 16 in
  if v <? base then Some v else None.

(** The digits at the front of [s]: their number, with [acc] before them,
    how many they are, and what follows them. *)
Fixpoint take_digits (base : Z) (s : string) (acc count : Z) : Z * Z * string :=
  match s with
  | EmptyString => (acc, count, s)
  | String c k =>
      match digit_in base c with
      | Some d => take_digits base k (base * acc + d) (count + 1)
      | None => (acc, count, s)
      end
  end.

(** A string made of digits only, and of one at least. *)
Definition all_digits (base : Z) (s : string) : option Z :=
  match take_digits base s 0 0 with
  | (v, n, EmptyString) => if 0 <? n then Some v else None
  | _ => None
  end.

(** ExponentPart, after the letter. *)
Definition exponent_part (s : string) : option Z :=
  match s with
  | String c k =>
      if Ascii.eqb c "+" then all_digits 10 k
      else if Ascii.eqb c "-" then Z.opp <$> all_digits 10 k
      else all_digits 10 s
  | EmptyString => None
  end.

(** StrUnsignedDecimalLiteral other than Infinity: digits, a point and
    digits, an exponent, of which digits on one side of the point at least
    must be there. *)
Definition unsigned_decimal (s : string) : option (Z * Z) :=
  let '(i, ni, r) := take_digits 10 s 0 0 in
  let '(m, nf, r) :=
    match r with
    | String c k => if Ascii.eqb c "." then take_digits 10 k i 0 else (i, 0, r)
    | EmptyString => (i, 0, r)
    end in
  if ni + nf =? 0 then None
  else
    match r with
    | EmptyString => Some (m, - nf)
    | String c k =>
        if Ascii.eqb c "e" || Ascii.eqb c "E"
        then (λ e, (m, e - nf)) <$> exponent_part k
        else None
    end.

Definition signed_decimal (negative : bool) (s : string) : t :=
  if String.eqb s "Infinity" then Infinity negative
  else
    match unsigned_decimal s with
    | Some (m, e) => Decimal negative m e
    | None => NaN
    end.

Definition integer_literal (base : Z) (s : string) : t :=
  match all_digits base s with
  | Some v => Decimal false v 0
  | None => NaN
  end.

(** StrNumericLiteral; the empty string is 0. *)
Definition literal (s : string) : t :=
  match s with
  | EmptyString => Decimal false 0 0
  | String c k =>
      if Ascii.eqb c "+" then signed_decimal false k
      else if Ascii.eqb c "-" then signed_decimal true k
      else
        match k with
        | String x r =>
            if Ascii.eqb c "0" && (Ascii.eqb x "x" || Ascii.eqb x "X") then integer_literal 16 r
            else if Ascii.eqb c "0" && (Ascii.eqb x "o" || Ascii.eqb x "O") then integer_literal 8 r
            else if Ascii.eqb c "0" && (Ascii.eqb x "b" || Ascii.eqb x "B") then integer_literal 2 r
            else signed_decimal false s
        | EmptyString => signed_decimal false s
        end
  end.

(** [Number(s)], before rounding. *)
Definition read (s : string) : t := literal (trim s).

(** [digits × 10 ^ exponent] *)
Definition value (m e : Z) : Q :=
  if 0 <=? e then inject_Z (m * 10 ^ e) else Qmake m (Z.to_pos (10 ^ (- e))).

(** The double of [digits × 10 ^ exponent] is zero: the number is 0 or at
    most 2^-1075. A number [m] has at most [(log2 m + 3) / 3] decimal
    digits, so one below 10^-330 is told by its exponent, without writing
    the power of ten down. *)
Definition rounds_to_zero (m e : Z) : bool :=
  if m =? 0 then true
  else if e + (Z.log2 m + 3) / 3 <? -330 then true
  else if e <? 0 then Qle_bool (value m e) (Qmake 1 (2 ^ 1075)%positive)
  else false.

End Number.

End JS.

(** ** JSON documents *)

Module JSON.

Inductive t :=
| JString (s : string)
| JNumber (q : Q)
| JObject (members : list (string * t)).

(** The JSON form of a value; [undefined] has none. *)
Definition of_value (v : JS.Value) : option t :=
  match v with
  | JS.Undefined => None
  | JS.Str s => Some (JString s)
  | JS.Num n => Some (JNumber (inject_Z n))
  end.

(** [JSON.stringify] of an object literal: the members in the order they
    are written, those whose value is [undefined] left out. *)
Definition object (members : list (string * option t)) : t :=
  JObject (omap (λ m, pair (fst m) <$> snd m) members).

Definition keys (j : t) : list string :=
  match j with
  | JObject members => fst <$> members
  | _ => []
  end.

Fixpoint assoc (k : string) (members : list (string * t)) : option t :=
  match members with
  | [] => None
  | (k', v) :: rest => if String.eqb k k' then Some v else assoc k rest
  end.

Definition get (k : string) (j : t) : option t :=
  match j with
  | JObject members => assoc k members
  | _ => None
  end.

End JSON.

(* ===================================================================== *)
(** * The Node.js process *)
(* ===================================================================== *)

Module Node.

(** What the program can observe of its process and of the machine. *)
Record Process := {
  env : gmap string string;    (** [process.env] *)
  release : string;            (** [process.versions.node], e.g. 18.19.0 *)
  hr_start : Z;                (** monotonic clock at process start, in ns *)
  hr_now : Z;                  (** monotonic clock now, in ns *)
  wall : Z;                    (** wall clock now, in ms since the epoch *)
  files : gmap string string;  (** the files below the working directory,
                                   by name: [public/index.html] *)
  dirs : gset string;          (** the directories below the working directory *)
  content_types : gmap string string
    (** the table of the installed mime package, charset included:
        file extension to [Content-Type] *)
}.

(** [process.version] *)
Definition version (p : Process) : string := "v" +:+ release p.

(** [process.uptime()]: the nanoseconds since the process started are
    converted to a double, which is divided by 1e9. *)
Definition uptime (p : Process) : Q :=
  JS.Double.div (JS.Double.of_Z (hr_now p - hr_start p)) (inject_Z 1000000000).

(** [new Date()]: the time value of the current time. *)
Definition Date_now (p : Process) : Z := wall p.

(** What changes the process: the environment, the clocks, and the files
    and directories, which are written and removed one at a time. *)
Definition set_env (k v : string) (p : Process) : Process :=
  {| env := <[k := v]> (env p); release := release p; hr_start := hr_start p;
     hr_now := hr_now p; wall := wall p; files := files p; dirs := dirs p;
     content_types := content_types p |}.

Definition unset_env (k : string) (p : Process) : Process :=
  {| env := delete k (env p); release := release p; hr_start := hr_start p;
     hr_now := hr_now p; wall := wall p; files := files p; dirs := dirs p;
     content_types := content_types p |}.

Definition elapse (ns : Z) (p : Process) : Process :=
  {| env := env p; release := release p; hr_start := hr_start p;
     hr_now := hr_now p + ns; wall := wall p; files := files p; dirs := dirs p;
     content_types := content_types p |}.

Definition set_clock (ms : Z) (p : Process) : Process :=
  {| env := env p; release := release p; hr_start := hr_start p;
     hr_now := hr_now p; wall := ms; files := files p; dirs := dirs p;
     content_types := content_types p |}.

Definition write_file (name content : string) (p : Process) : Process :=
  {| env := env p; release := release p; hr_start := hr_start p;
     hr_now := hr_now p; wall := wall p; files := <[name := content]> (files p);
     dirs := dirs p; content_types := content_types p |}.

Definition remove_file (name : string) (p : Process) : Process :=
  {| env := env p; release := release p; hr_start := hr_start p;
     hr_now := hr_now p; wall := wall p; files := delete name (files p);
     dirs := dirs p; content_types := content_types p |}.

Definition make_dir (name : string) (p : Process) : Process :=
  {| env := env p; release := release p; hr_start := hr_start p;
     hr_now := hr_now p; wall := wall p; files := files p;
     dirs := {[ name ]} ∪ dirs p; content_types := content_types p |}.

Definition remove_dir (name : string) (p : Process) : Process :=
  {| env := env p; release := release p; hr_start := hr_start p;
     hr_now := hr_now p; wall := wall p; files := files p;
     dirs := dirs p ∖ {[ name ]}; content_types := content_types p |}.

(** ** [net.Server.listen]

    What [listen] is asked to listen on, by its first argument. *)
Inductive Endpoint :=
| Port (n : Z)            (** the TCP port [n], from 1 to 65535 *)
| AnyPort                 (** a TCP port the operating system chooses *)
| Pipe (path : string).   (** a pipe or UNIX domain socket of that name *)

(** A number is a port when it is an integer from 0 to 65535, 0 standing
    for any port; [listen] throws for another number. *)
Definition listen_number (x : Q) : option Endpoint :=
  if JS.Double.is_integer x && Qle_bool 0 x && Qle_bool x (inject_Z 65535)
  then Some (if Qeq_bool x 0 then AnyPort else Port (Qfloor x))
  else None.

(** A string whose number is not zero or more ([NaN] included) names a
    pipe; of the others, [listen] throws for one that is blank and reads
    the number of the rest as a port. *)
Definition listen_string (s : string) : option Endpoint :=
  match JS.Number.read s with
  | JS.Number.NaN => Some (Pipe s)
  | JS.Number.Infinity true => Some (Pipe s)
  | JS.Number.Infinity false => None
  | JS.Number.Decimal negative m e =>
      if JS.Number.rounds_to_zero m e then
        if String.eqb (JS.Number.trim s) "" then None else Some AnyPort
      else if negative then Some (Pipe s)
      else if 30 <? e then None
      else listen_number (JS.Double.round (JS.Number.value m e))
  end.

(** The endpoint [server.listen(v, callback)] listens on; [None] when it
    throws. The operating system is taken to grant the endpoint. *)
Definition listen (v : JS.Value) : option Endpoint :=
  match v with
  | JS.Undefined => Some AnyPort
  | JS.Num n => listen_number (inject_Z n)
  | JS.Str s => listen_string s
  end.

End Node.

(* ===================================================================== *)
(** * Express *)
(* ===================================================================== *)

(** A request is its method, its path and what [express.json()] makes of
    its body. It has no conditional and no range headers and no header of
    a CORS preflight. The path is the path of the URL, without the query.
    Of the response headers, [Content-Type], [Location] and the
    [Access-Control] headers of [cors()] are modelled. *)

Module Express.

Inductive Method :=
| GET | HEAD | POST | PUT | PATCH | DELETE | OPTIONS
| Other (name : string).   (** any other method the HTTP parser knows *)

#[global] Instance Method_eq_dec : EqDecision Method.
Proof. solve_decision. Defined.

Definition method_name (m : Method) : string :=
  match m with
  | GET => "GET" | HEAD => "HEAD" | POST => "POST" | PUT => "PUT"
  | PATCH => "PATCH" | DELETE => "DELETE" | OPTIONS => "OPTIONS"
  | Other name => name
  end.

Record Request := {
  method : Method;
  path : string;
  (** the status of the error [express.json()] raises for the body, when
      it raises one: 400 for JSON it cannot parse, 413 for a body above
      the limit, 415 for an encoding it does not know *)
  body_error : option Z
}.

Inductive Body :=
| Text (s : string)             (** a string given to [res.send] *)
| Json (j : JSON.t)             (** [JSON.stringify] of an object given to [res.json] *)
| File (content : string)       (** a file, sent as it is *)
| ErrorPage (message : string)  (** the HTML page of the default handler, with its message *)
| ErrorReport                   (** the same page for an error a middleware raised:
                                    the stack of the error, or in production the
                                    name of the status *)
| Redirecting (location : string) (** the page that goes with a redirect *)
| Empty.                        (** no body *)

Record Response := {
  status : Z;
  headers : gmap string string;
  body : Body
}.

(** The [res] object while the request travels through the chain. *)
Record Res := { statusCode : Z; hdrs : gmap string string }.

Definition fresh_res : Res := {| statusCode := 200; hdrs := ∅ |}.

Definition setHeader (k v : string) (res : Res) : Res :=
  {| statusCode := statusCode res; hdrs := <[k := v]> (hdrs res) |}.

(** A [Content-Type] is kept when one was set before. *)
Definition default_type (v : string) (h : gmap string string) : gmap string string :=
  match h !! "Content-Type"%string with
  | Some _ => h
  | None => <["Content-Type"%string := v]> h
  end.

(** [res.send(string)] *)
Definition send (s : string) (res : Res) : Response :=
  {| status := statusCode res;
     headers := default_type "text/html; charset=utf-8" (hdrs res);
     body := Text s |}.

(** [res.json(object)] *)
Definition json (j : JSON.t) (res : Res) : Response :=
  {| status := statusCode res;
     headers := default_type "application/json; charset=utf-8" (hdrs res);
     body := Json j |}.

(** The media type of a [Content-Type] value: what precedes the parameters. *)
Fixpoint before_semicolon (s : string) : string :=
  match s with
  | EmptyString => EmptyString
  | String c k => if Ascii.eqb c ";" then EmptyString else String c (before_semicolon k)
  end.

Definition media_type (r : Response) : option string :=
  before_semicolon <$> headers r !! "Content-Type"%string.

(** A layer of the chain either answers or calls [next()]. *)
Inductive Outcome :=
| Next (res : Res)
| End (r : Response).

Definition Middleware : Type := Node.Process → Request → Res → Outcome.
Definition Handler : Type := Node.Process → Request → Res → Response.

(** [cors()] with its default options: every origin is allowed, and an
    OPTIONS request is answered at once with 204. *)
Definition preflight (res : Res) : Response :=
  {| status := 204;
     headers := <["Access-Control-Allow-Methods"%string :=
                    "GET,HEAD,PUT,PATCH,POST,DELETE"%string]> (hdrs res);
     body := Empty |}.

Definition cors : Middleware :=
  λ _ req res,
    let res := setHeader "Access-Control-Allow-Origin" "*" res in
    match method req with
    | OPTIONS => End (preflight res)
    | _ => Next res
    end.

(** The default handler, for an error a middleware passed on: the status
    of the error when that is from 400 to 599, otherwise 500. *)
Definition error_response (st : Z) (res : Res) : Response :=
  {| status := if (400 <=? st) && (st <? 600) then st else 500;
     headers := <["Content-Type"%string := "text/html; charset=utf-8"%string]> (hdrs res);
     body := ErrorReport |}.

(** [express.json()]: parses a JSON body when there is one, and passes the
    error on when it cannot. *)
Definition json_parser : Middleware :=
  λ _ req res,
    match body_error req with
    | Some st => End (error_response st res)
    | None => Next res
    end.

Fixpoint ends_with_slash (s : string) : bool :=
  match s with
  | EmptyString => false
  | String c EmptyString => Ascii.eqb c "/"
  | String _ k => ends_with_slash k
  end.

(** The last segment of a path: what follows its last slash. *)
Fixpoint last_segment (s acc : string) : string :=
  match s with
  | EmptyString => acc
  | String c k => if Ascii.eqb c "/" then last_segment k EmptyString
                  else last_segment k (acc +:+ String c EmptyString)
  end.

(** A dotfile: the name of the file begins with a dot and goes on after it. *)
Definition dotfile (path : string) : bool :=
  match last_segment path EmptyString with
  | String c (String _ _) => Ascii.eqb c "."
  | _ => false
  end.

Definition lower (c : ascii) : ascii :=
  let n := nat_of_ascii c in
  if (65 <=? n)%nat && (n <=? 90)%nat then ascii_of_nat (n + 32) else c.

Fixpoint lowercase (s : string) : string :=
  match s with
  | EmptyString => EmptyString
  | String c k => String (lower c) (lowercase k)
  end.

(** The key under which the mime table has the type of a file: what
    follows the last dot or slash of its name, in lower case. *)
Fixpoint after_last_dot (s acc : string) : string :=
  match s with
  | EmptyString => acc
  | String c k => if Ascii.eqb c "." || Ascii.eqb c "/" then after_last_dot k EmptyString
                  else after_last_dot k (acc +:+ String c EmptyString)
  end.

Definition content_type (p : Node.Process) (name : string) : string :=
  default "application/octet-stream"%string
    (Node.content_types p !! lowercase (after_last_dot name EmptyString)).

Definition file_response (p : Node.Process) (name content : string) (res : Res) : Response :=
  {| status := statusCode res;
     headers := <["Content-Type"%string := content_type p name]> (hdrs res);
     body := File content |}.

Definition redirect (location : string) (res : Res) : Response :=
  {| status := 301;
     headers := <["Location"%string := location]>
                  (<["Content-Type"%string := "text/html; charset=UTF-8"%string]> (hdrs res));
     body := Redirecting location |}.

(** [express.static(root)] answers GET and HEAD requests only. A dotfile
    is ignored. A path that ends with a slash is answered with the
    [index.html] of that directory; another path with the file of that
    name, or, when it names a directory, with a redirect to the path with
    a slash. Everything else goes on down the chain. *)
Definition static (root : string) : Middleware :=
  λ p req res,
    match method req with
    | GET | HEAD =>
        if dotfile (path req) then Next res
        else if ends_with_slash (path req) then
          match Node.files p !! (root +:+ path req +:+ "index.html") with
          | Some content =>
              End (file_response p (root +:+ path req +:+ "index.html") content res)
          | None => Next res
          end
        else
          match Node.files p !! (root +:+ path req) with
          | Some content => End (file_response p (root +:+ path req) content res)
          | None =>
              if decide (root +:+ path req ∈ Node.dirs p)
              then End (redirect (path req +:+ "/") res)
              else Next res
          end
    | _ => Next res
    end.

(** A pattern without parameters matches the path that is the pattern,
    with or without a slash at the end, whatever the case of the letters. *)
Definition without_slash (s : string) : string :=
  if ends_with_slash s then String.substring 0 (String.length s - 1) s else s.

Definition route_matches (pattern path : string) : bool :=
  String.eqb (lowercase path) (lowercase (without_slash pattern)) ||
  String.eqb (lowercase path) (lowercase (without_slash pattern +:+ "/")).

(** [app.get(pattern, handler)]: the handler answers GET requests, and
    HEAD requests as there is no route for HEAD. *)
Definition get (pattern : string) (h : Handler) : Middleware :=
  λ p req res,
    match method req with
    | GET | HEAD => if route_matches pattern (path req) then End (h p req res) else Next res
    | _ => Next res
    end.

(** The default handler at the end of the chain: a generic 404. *)
Definition finalhandler (req : Request) (res : Res) : Response :=
  {| status := 404;
     headers := <["Content-Type"%string := "text/html; charset=utf-8"%string]> (hdrs res);
     body := ErrorPage ("Cannot " +:+ method_name (method req) +:+ " " +:+ path req) |}.

(** A request goes down the layers until one answers. *)
Fixpoint pass (stack : list Middleware) (p : Node.Process) (req : Request) (res : Res)
  : Outcome :=
  match stack with
  | [] => Next res
  | m :: rest =>
      match m p req res with
      | Next res' => pass rest p req res'
      | End r => End r
      end
  end.

(** When none does, the default handler answers. *)
Definition dispatch (stack : list Middleware) (p : Node.Process) (req : Request) (res : Res)
  : Response :=
  match pass stack p req res with
  | Next res' => finalhandler req res'
  | End r => r
  end.

(** The answer to a HEAD request goes out without its body. *)
Definition on_the_wire (req : Request) (r : Response) : Response :=
  match method req with
  | HEAD => {| status := status r; headers := headers r; body := Empty |}
  | _ => r
  end.

(** The same request with the method GET. *)
Definition as_get (req : Request) : Request :=
  {| method := GET; path := path req; body_error := body_error req |}.

(** A path whose segments are made of letters, digits, [-], [_], [.] and
    [~], are not empty and do not begin with a dot, with or without a
    slash at the end: a path that needs no decoding and no normalising. *)
Definition plain_char (c : ascii) : bool :=
  let n := nat_of_ascii c in
  ((48 <=? n) && (n <=? 57) || (65 <=? n) && (n <=? 90) || (97 <=? n) && (n <=? 122) ||
   (n =? 45) || (n =? 95) || (n =? 46) || (n =? 126))%nat.

Fixpoint plain_segments (s : string) : bool :=
  match s with
  | EmptyString => true
  | String c k =>
      if Ascii.eqb c "/" then
        match k with
        | EmptyString => true
        | String d _ => negb (Ascii.eqb d "/") && negb (Ascii.eqb d ".") && plain_segments k
        end
      else plain_char c && plain_segments k
  end.

Definition plain_path (s : string) : bool :=
  match s with
  | String c _ => Ascii.eqb c "/" && plain_segments s
  | EmptyString => false
  end.

(** The TCP port [listen] opens for its first argument, when it is asked
    for one port. *)
Definition tcp_port (v : JS.Value) : option Z :=
  match Node.listen v with
  | Some (Node.Port n) => Some n
  | _ => None
  end.

End Express.

(* ===================================================================== *)
(** * app.js *)
(* ===================================================================== *)

Module App.

Import Node Express.

Definition nl : string := String (ascii_of_nat 10) EmptyString.
Definition dq : string := String (ascii_of_nat 34) EmptyString.

(** [const PORT = process.env.PORT || 3000;] *)
Definition PORT (p : Process) : JS.Value :=
  JS.or (JS.prop (env p) "PORT") (JS.Num 3000).

(** [process.env.NODE_ENV || 'development'] *)
Definition environment (p : Process) : JS.Value :=
  JS.or (JS.prop (env p) "NODE_ENV") (JS.Str "development").

(** The same, as the string a template literal makes of it. *)
Definition environment_name (p : Process) : string := JS.to_string (environment p).

(** [new Date().toISOString()] *)
Definition timestamp (p : Process) : string := JS.Date.toISOString (Date_now p).

(** The template literal of the home page, cut at its three substitutions. *)
Definition page_head : string :=
  String.concat nl [
    "";
    "        <!DOCTYPE html>";
    ("        <html lang=" +:+ dq +:+ "en" +:+ dq +:+ ">");
    "        <head>";
    ("            <meta charset=" +:+ dq +:+ "UTF-8" +:+ dq +:+ ">");
    ("            <meta name=" +:+ dq +:+ "viewport" +:+ dq +:+ " content=" +:+ dq +:+ "width=device-width, initial-scale=1.0" +:+ dq +:+ ">");
    "            <title>Simple Blog App</title>";
    "            <style>";
    "                body { font-family: Arial, sans-serif; margin: 40px; background: #f5f5f5; }";
    "                .container { max-width: 800px; margin: 0 auto; background: white; padding: 30px; border-radius: 10px; box-shadow: 0 2px 10px rgba(0,0,0,0.1); }";
    "                .header { text-align: center; color: #333; margin-bottom: 30px; }";
    "                .info { background: #e8f4fd; padding: 15px; border-radius: 5px; margin: 15px 0; }";
    "                .success { background: #d4edda; color: #155724; padding: 15px; border-radius: 5px; margin: 15px 0; }";
    "            </style>";
    "        </head>";
    "        <body>";
    ("            <div class=" +:+ dq +:+ "container" +:+ dq +:+ ">");
    ("                <div class=" +:+ dq +:+ "header" +:+ dq +:+ ">");
    "                    <h1>🚀 Simple Blog App</h1>";
    "                    <p>Node.js Application deployed via GitHub Actions</p>";
    "                </div>";
    "                ";
    ("                <div class=" +:+ dq +:+ "success" +:+ dq +:+ ">");
    "                    ✅ Application is running successfully!";
    "                </div>";
    "                ";
    ("                <div class=" +:+ dq +:+ "info" +:+ dq +:+ ">");
    "                    <h3>System Information</h3>";
    "                    <p><strong>Node.js Version:</strong> "
  ].

Definition page_after_version : string :=
  String.concat nl [
    "</p>";
    "                    <p><strong>Environment:</strong> "
  ].

Definition page_after_environment : string :=
  String.concat nl [
    "</p>";
    "                    <p><strong>Timestamp:</strong> "
  ].

Definition page_tail : string :=
  String.concat nl [
    "</p>";
    "                </div>";
    "                ";
    ("                <div class=" +:+ dq +:+ "info" +:+ dq +:+ ">");
    "                    <h3>API Endpoints</h3>";
    ("                    <p><a href=" +:+ dq +:+ "/api/health" +:+ dq +:+ ">Health Check</a></p>");
    ("                    <p><a href=" +:+ dq +:+ "/api/info" +:+ dq +:+ ">System Info</a></p>");
    "                </div>";
    "            </div>";
    "        </body>";
    "        </html>";
    "    "
  ].

Definition home_page (p : Process) : string :=
  page_head +:+ version p +:+
  page_after_version +:+ environment_name p +:+
  page_after_environment +:+ timestamp p +:+
  page_tail.

(** [app.get('/', ...)] *)
Definition home : Handler := λ p _ res, send (home_page p) res.

(** [app.get('/api/health', ...)] *)
Definition health : Handler :=
  λ p _ res,
    json (JSON.object [
      ("status", Some (JSON.JString "healthy"));
      ("timestamp", Some (JSON.JString (timestamp p)));
      ("uptime", Some (JSON.JNumber (uptime p)))
    ]%string) res.

(** [app.get('/api/info', ...)] *)
Definition info : Handler :=
  λ p _ res,
    json (JSON.object [
      ("status", Some (JSON.JString "success"));
      ("message", Some (JSON.JString "Simple Blog App Node.js Application"));
      ("version", Some (JSON.JString "1.0.0"));
      ("node_version", Some (JSON.JString (version p)));
      ("environment", JSON.of_value (environment p));
      ("timestamp", Some (JSON.JString (timestamp p)))
    ]%string) res.

(** The application: the middleware and the routes in the order of the file. *)
Definition stack : list Middleware := [
  cors;
  json_parser;
  static "public";
  get "/" home;
  get "/api/health" health;
  get "/api/info" info
].

(** The response of the application to a request. *)
Definition app (p : Process) (req : Request) : Response :=
  on_the_wire req (dispatch stack p req fresh_res).

(** The [res] object when the request arrives at the routes. *)
Definition res_at_routes : Res :=
  setHeader "Access-Control-Allow-Origin" "*" fresh_res.

(** The request gets as far as the routes: it is no OPTIONS request, which
    [cors()] answers, [express.json()] raises no error for its body, and
    [express.static] finds nothing to answer it with. *)
Definition reaches_routes (p : Process) (req : Request) : Prop :=
  pass [cors; json_parser; static "public"] p req fresh_res = Next res_at_routes.

(** The [uptime] member of a JSON response. *)
Definition uptime_of (r : Response) : option Q :=
  match body r with
  | Json j =>
      match JSON.get "uptime" j with
      | Some (JSON.JNumber q) => Some q
      | _ => None
      end
  | _ => None
  end.

(** The member [k] of a JSON response. *)
Definition member (k : string) (r : Response) : option JSON.t :=
  match body r with
  | Json j => JSON.get k j
  | _ => None
  end.

(** ** The server

    The module is evaluated once: [PORT] is computed, the chain is built
    and [app.listen(PORT, callback)] is called. When [listen] throws, the
    process ends there; otherwise the callback writes two lines once the
    server listens. *)
Record Server := {
  port : JS.Value;         (** the constant [PORT] *)
  listening : JS.Value;    (** the first argument [app.listen] was given *)
  stdout : list string;    (** the lines written by [console.log] *)
  proc : Process           (** the process as it is now *)
}.

Definition start (p : Process) : Server :=
  let PORT := PORT p in
  {| port := PORT;
     listening := PORT;
     stdout := match listen PORT with
               | Some _ =>
                   [ "🚀 Simple Blog App server running on port " +:+ JS.to_string PORT;
                     "📍 Environment: " +:+ JS.to_string (environment p) ]
               | None => []
               end;
     proc := p |}.

(** What happens to a running server, seen from the program. *)
Inductive Event :=
| Elapse (ns : Z)                  (** time passes *)
| SetClock (ms : Z)                (** the wall clock is set *)
| SetEnv (k v : string)            (** [process.env[k] = v] *)
| UnsetEnv (k : string)            (** [delete process.env[k]] *)
| CreateFile (name content : string)
| DeleteFile (name : string)
| MakeDir (name : string)
| RemoveDir (name : string).

Definition on_process (e : Event) : Process → Process :=
  match e with
  | Elapse ns => elapse ns
  | SetClock ms => set_clock ms
  | SetEnv k v => set_env k v
  | UnsetEnv k => unset_env k
  | CreateFile n c => write_file n c
  | DeleteFile n => remove_file n
  | MakeDir n => make_dir n
  | RemoveDir n => remove_dir n
  end.

Definition step (s : Server) (e : Event) : Server :=
  {| port := port s; listening := listening s; stdout := stdout s;
     proc := on_process e (proc s) |}.

Definition run (s : Server) (es : list Event) : Server := fold_left step es s.

(** The monotonic clock never goes back, and the wall clock shows a time a
    [Date] can hold. *)
Definition admissible (e : Event) : Prop :=
  match e with
  | Elapse ns => 0 <= ns
  | SetClock ms => JS.Date.valid_time ms
  | _ => True
  end.

(** A process as the operating system starts it. *)
Definition initial (p : Process) : Prop :=
  hr_now p = hr_start p ∧ JS.Date.valid_time (wall p).

Inductive reachable : Server → Prop :=
| reachable_start p : initial p → reachable (start p)
| reachable_step s e : reachable s → admissible e → reachable (step s e).

(** The response of the running server to a request. *)
Definition respond (s : Server) (req : Request) : Response := app (proc s) req.

(** The requests of the three routes. *)
Definition GET_home : Request := {| method := GET; path := "/"; body_error := None |}.
Definition GET_health : Request :=
  {| method := GET; path := "/api/health"; body_error := None |}.
Definition GET_info : Request :=
  {| method := GET; path := "/api/info"; body_error := None |}.

(** The nanoseconds that pass during a list of events. *)
Definition total_elapsed (es : list Event) : Z :=
  fold_right (λ e acc, match e with Elapse ns => ns + acc | _ => acc end) 0 es.

(** A process to try things on: no environment variable, no file. *)
Definition sample : Process :=
  {| env := ∅; release := "18.19.0"; hr_start := 5000; hr_now := 5000;
     wall := 1762128000123; files := ∅; dirs := ∅;
     content_types := {[ "html"%string := "text/html; charset=UTF-8"%string ]} |}.

End App.

(* ===================================================================== *)
(** * Facts about doubles *)
(* ===================================================================== *)

Module DoubleFacts.

Import JS.Double.
Local Open Scope Q_scope.

Lemma two_pos e : 0 < 2 ^ e.
Proof. apply Qpower_0_lt. reflexivity. Qed.

Lemma two_mono a b : (a <= b)%Z -> 2 ^ a <= 2 ^ b.
Proof. intros H. apply Qpower_le_compat_l; [exact H | discriminate]. Qed.

Lemma two_succ a : 2 ^ (a + 1) == 2 * 2 ^ a.
Proof. rewrite Qpower_plus by discriminate. rewrite Qmult_comm. reflexivity. Qed.

Lemma two_lt_inv a b : 2 ^ a < 2 ^ b -> (a < b)%Z.
Proof.
  intros H. destruct (Z_lt_le_dec a b) as [L|L]; [exact L|].
  apply two_mono in L. exfalso. apply (Qlt_not_le _ _ H L).
Qed.

Lemma Zpow_two n : (0 <= n)%Z -> inject_Z (2 ^ n) == 2 ^ n.
Proof. intros H. now rewrite Zpower_Qpower. Qed.

Lemma log2_bounds n : (0 < n)%Z -> inject_Z n < 2 ^ (Z.log2 n + 1) /\ 2 ^ Z.log2 n <= inject_Z n.
Proof.
  intros H. destruct (Z.log2_spec n H) as [L U].
  pose proof (Z.log2_nonneg n) as Hn.
  split.
  - rewrite <- Zpow_two by lia. rewrite <- Zlt_Qlt. replace (Z.log2 n + 1)%Z with (Z.succ (Z.log2 n)) by lia. exact U.
  - rewrite <- Zpow_two by lia. rewrite <- Zle_Qle. exact L.
Qed.

Lemma exponent_rough x :
  0 < x ->
  let e0 := (Z.log2 (Qnum x) - Z.log2 (Zpos (Qden x)))%Z in
  2 ^ (e0 - 1) < x /\ x < 2 ^ (e0 + 1).
Proof.
  intros Hx e0. destruct x as [n d]. cbn [Qnum Qden] in *.
  assert (Hn : (0 < n)%Z) by (unfold Qlt in Hx; cbn in Hx; lia).
  destruct (log2_bounds n Hn) as [Un Ln].
  destruct (log2_bounds (Zpos d) eq_refl) as [Ud Ld].
  set (a := Z.log2 n) in *. set (b := Z.log2 (Zpos d)) in *.
  assert (E : n # d == inject_Z n / inject_Z (Zpos d)) by apply Qmake_Qdiv.
  assert (Dpos : 0 < inject_Z (Zpos d)) by reflexivity.
  subst e0. split.
  - (* 2^(a-b-1) * d < n *)
    rewrite E. apply Qlt_shift_div_l; [exact Dpos|].
    apply Qlt_le_trans with (2 ^ (a - b - 1) * 2 ^ (b + 1)).
    + apply Qmult_lt_l; [apply two_pos|exact Ud].
    + rewrite <- Qpower_plus by discriminate.
      replace (a - b - 1 + (b + 1))%Z with a by lia. exact Ln.
  - rewrite E. apply Qlt_shift_div_r; [exact Dpos|].
    apply Qlt_le_trans with (2 ^ (a + 1)); [exact Un|].
    replace (a + 1)%Z with (a - b + 1 + b)%Z by lia.
    rewrite Qpower_plus by discriminate.
    apply Qmult_le_l; [apply two_pos|exact Ld].
Qed.

Lemma exponent_spec x : 0 < x -> 2 ^ exponent x <= x /\ x < 2 ^ (exponent x + 1).
Proof.
  intros Hx. destruct (exponent_rough x Hx) as [L U]. unfold exponent.
  set (e0 := (Z.log2 (Qnum x) - Z.log2 (Zpos (Qden x)))%Z) in *.
  destruct (Qle_bool (2 ^ e0) x) eqn:B.
  - apply Qle_bool_iff in B. split; assumption.
  - split; [apply Qlt_le_weak; exact L|].
    replace (e0 - 1 + 1)%Z with e0 by lia.
    apply Qnot_le_lt. intros C. apply Qle_bool_iff in C. congruence.
Qed.

Lemma exponent_mono x y : 0 < x -> x <= y -> (exponent x <= exponent y)%Z.
Proof.
  intros Hx Hxy. assert (Hy : 0 < y) by (eapply Qlt_le_trans; eassumption).
  destruct (exponent_spec x Hx) as [Lx _]. destruct (exponent_spec y Hy) as [_ Uy].
  assert (H : 2 ^ exponent x < 2 ^ (exponent y + 1)).
  { eapply Qle_lt_trans; [exact Lx|]. eapply Qle_lt_trans; eassumption. }
  apply two_lt_inv in H. lia.
Qed.

Lemma nearest_even_bounds x :
  (Qfloor x <= nearest_even x <= Qfloor x + 1)%Z.
Proof.
  unfold nearest_even.
  destruct (Qcompare (x - inject_Z (Qfloor x)) (1 # 2)); [destruct (Z.even (Qfloor x))| |]; lia.
Qed.

Lemma nearest_even_mono x y : x <= y -> (nearest_even x <= nearest_even y)%Z.
Proof.
  intros H. pose proof (Qfloor_resp_le x y H) as F.
  pose proof (nearest_even_bounds x) as Bx. pose proof (nearest_even_bounds y) as By.
  destruct (Z.eq_dec (Qfloor x) (Qfloor y)) as [E|N]; [|lia].
  unfold nearest_even in *. rewrite <- E in *.
  set (f := Qfloor x) in *.
  assert (R : x - inject_Z f <= y - inject_Z f) by lra.
  destruct (Qcompare_spec (x - inject_Z f) (1 # 2)) as [Cx|Cx|Cx];
    destruct (Qcompare_spec (y - inject_Z f) (1 # 2)) as [Cy|Cy|Cy];
    destruct (Z.even f); try lia; exfalso; lra.
Qed.

Lemma nearest_even_Z z : nearest_even (inject_Z z) = z.
Proof.
  unfold nearest_even. rewrite Qfloor_Z.
  destruct (Qcompare_spec (inject_Z z - inject_Z z) (1 # 2)) as [C|C|C]; try reflexivity;
    exfalso; lra.
Qed.

Lemma nearest_even_nonneg x : 0 <= x -> (0 <= nearest_even x)%Z.
Proof.
  intros H. apply (nearest_even_mono 0 x) in H.
  assert (E : nearest_even 0 = 0%Z) by apply (nearest_even_Z 0).
  now rewrite E in H.
Qed.

Lemma ulp_pos x : 0 < ulp x.
Proof. apply two_pos. Qed.

Lemma round_pos_nonneg x : 0 <= x -> 0 <= round_pos x.
Proof.
  intros H. unfold round_pos. apply Qmult_le_0_compat; [|apply Qlt_le_weak, ulp_pos].
  rewrite <- (Zle_Qle 0). apply nearest_even_nonneg.
  apply Qle_shift_div_l; [apply ulp_pos|]. lra.
Qed.

(** The significand of a normal number has 53 bits. *)
Lemma significand_bounds x :
  0 < x ->
  (nearest_even (x / ulp x) <= 2 ^ 53)%Z /\
  ((-1074 <= exponent x - 52)%Z -> (2 ^ 52 <= nearest_even (x / ulp x))%Z).
Proof.
  intros Hx. destruct (exponent_spec x Hx) as [L U].
  unfold ulp. set (k := exponent x) in *. split.
  - assert (S : x / 2 ^ Z.max (k - 52) (-1074) <= inject_Z (2 ^ 53)).
    { apply Qle_shift_div_r; [apply two_pos|].
      rewrite Zpow_two by lia.
      rewrite <- Qpower_plus by discriminate.
      apply Qlt_le_weak. eapply Qlt_le_trans; [exact U|]. apply two_mono. lia. }
    apply nearest_even_mono in S. now rewrite nearest_even_Z in S.
  - intros Hk. rewrite Z.max_l by lia.
    assert (S : inject_Z (2 ^ 52) <= x / 2 ^ (k - 52)).
    { apply Qle_shift_div_l; [apply two_pos|].
      rewrite Zpow_two by lia.
      rewrite <- Qpower_plus by discriminate.
      replace (52 + (k - 52))%Z with k by lia. exact L. }
    apply nearest_even_mono in S. now rewrite nearest_even_Z in S.
Qed.

Lemma round_pos_mono x y : 0 < x -> x <= y -> round_pos x <= round_pos y.
Proof.
  intros Hx Hxy. assert (Hy : 0 < y) by (eapply Qlt_le_trans; eassumption).
  pose proof (exponent_mono x y Hx Hxy) as He.
  destruct (significand_bounds x Hx) as [Ux _].
  destruct (significand_bounds y Hy) as [_ Ly].
  unfold round_pos in *. unfold ulp in *.
  set (kx := exponent x) in *. set (ky := exponent y) in *.
  set (ex := Z.max (kx - 52) (-1074)) in *. set (ey := Z.max (ky - 52) (-1074)) in *.
  set (mx := nearest_even (x / 2 ^ ex)) in *. set (my := nearest_even (y / 2 ^ ey)) in *.
  destruct (Z.eq_dec ex ey) as [E|N].
  - assert (M : (mx <= my)%Z).
    { subst mx my. rewrite E. apply nearest_even_mono.
      apply Qmult_le_compat_r; [exact Hxy|]. apply Qinv_le_0_compat, Qlt_le_weak, two_pos. }
    rewrite E. apply Qmult_le_compat_r; [|apply Qlt_le_weak, two_pos].
    now rewrite <- Zle_Qle.
  - assert (Hlt : (ex < ey)%Z) by lia.
    assert (Hky : (-1074 <= ky - 52)%Z) by lia.
    specialize (Ly Hky).
    apply Qle_trans with (inject_Z (2 ^ 53) * 2 ^ ex).
    { apply Qmult_le_compat_r; [|apply Qlt_le_weak, two_pos]. now rewrite <- Zle_Qle. }
    apply Qle_trans with (inject_Z (2 ^ 52) * 2 ^ ey).
    { rewrite !Zpow_two by lia. rewrite <- !Qpower_plus by discriminate.
      apply two_mono. lia. }
    apply Qmult_le_compat_r; [|apply Qlt_le_weak, two_pos]. now rewrite <- Zle_Qle.
Qed.

Lemma round_nonneg x : 0 <= x -> 0 <= round x.
Proof.
  intros H. unfold round. destruct x as [[|n|n] d]; cbn [Qnum].
  - apply Qle_refl.
  - now apply round_pos_nonneg.
  - exfalso. unfold Qle in H. cbn in H. lia.
Qed.

Lemma round_nonpos x : x <= 0 -> round x <= 0.
Proof.
  intros H. unfold round. destruct x as [[|n|n] d]; cbn [Qnum].
  - apply Qle_refl.
  - exfalso. unfold Qle in H. cbn in H. lia.
  - assert (P : 0 <= round_pos (- (Z.neg n # d))).
    { apply round_pos_nonneg. unfold Qle. cbn. lia. }
    lra.
Qed.

Lemma round_mono x y : x <= y -> round x <= round y.
Proof.
  intros H.
  destruct (Qlt_le_dec 0 x) as [Px|Nx].
  - assert (Py : 0 < y) by (eapply Qlt_le_trans; eassumption).
    unfold round. destruct x as [[|n|n] d], y as [[|m|m] c]; cbn [Qnum];
      try (exfalso; unfold Qlt in *; cbn in *; lia).
    now apply round_pos_mono.
  - destruct (Qlt_le_dec 0 y) as [Py|Ny].
    + apply Qle_trans with 0; [now apply round_nonpos|apply round_nonneg; lra].
    + destruct (Qeq_dec y 0) as [Ey|Ny0].
      { apply Qle_trans with 0; [now apply round_nonpos|apply round_nonneg; lra]. }
      assert (Hy : 0 < - y) by lra.
      assert (Hm : - y <= - x) by lra.
      pose proof (round_pos_mono (- y) (- x) Hy Hm) as R.
      unfold round. destruct x as [[|n|n] d], y as [[|m|m] c]; cbn [Qnum];
        try (exfalso; unfold Qlt, Qle, Qeq in *; cbn in *; lia).
      lra.
Qed.

Lemma of_Z_mono a b : (a <= b)%Z -> of_Z a <= of_Z b.
Proof. intros H. apply round_mono. now rewrite <- Zle_Qle. Qed.

Lemma div_mono a b c : 0 < c -> a <= b -> div a c <= div b c.
Proof.
  intros Hc H. apply round_mono.
  apply Qmult_le_compat_r; [exact H|]. apply Qinv_le_0_compat, Qlt_le_weak, Hc.
Qed.


(** An integer below 2^53 is a double. *)
Lemma nearest_even_comp x y : x == y -> nearest_even x = nearest_even y.
Proof.
  intros E. apply Z.le_antisymm; apply nearest_even_mono; rewrite E; apply Qle_refl.
Qed.

Lemma round_integer n : (0 < n < 2 ^ 53)%Z -> round (inject_Z n) == inject_Z n.
Proof.
  intros [Hp Hb]. unfold round. cbn [inject_Z Qnum].
  destruct n as [|q|q]; try lia. fold (inject_Z (Zpos q)).
  set (x := inject_Z (Zpos q)).
  assert (Hx : 0 < x) by (subst x; rewrite <- (Zlt_Qlt 0); lia).
  destruct (exponent_spec x Hx) as [L U].
  assert (He0 : (0 <= exponent x)%Z).
  { assert (H1 : 2 ^ 0 < 2 ^ (exponent x + 1)).
    { eapply Qle_lt_trans; [|exact U]. subst x. change (2 ^ 0) with (inject_Z 1).
      rewrite <- Zle_Qle. lia. }
    apply two_lt_inv in H1. lia. }
  assert (He1 : (exponent x < 53)%Z).
  { apply two_lt_inv. eapply Qle_lt_trans; [exact L|]. subst x.
    rewrite <- Zpow_two by lia. now rewrite <- Zlt_Qlt. }
  unfold round_pos, ulp. rewrite Z.max_l by lia. set (e := exponent x) in *.
  assert (E : x / 2 ^ (e - 52) == inject_Z (Zpos q * 2 ^ (52 - e))).
  { rewrite inject_Z_mult, Zpow_two by lia.
    replace (e - 52)%Z with (- (52 - e))%Z by lia. rewrite Qpower_opp.
    unfold Qdiv. now rewrite Qinv_involutive. }
  rewrite (nearest_even_comp _ _ E), nearest_even_Z.
  rewrite inject_Z_mult, Zpow_two by lia.
  rewrite <- Qmult_assoc, <- Qpower_plus by discriminate.
  replace (52 - e + (e - 52))%Z with 0%Z by lia.
  change (2 ^ 0) with 1. apply Qmult_1_r.
Qed.

End DoubleFacts.

(* ===================================================================== *)
(** * Facts about dates *)
(* ===================================================================== *)

Module DateFacts.

Import JS JS.Date.

Example toISOString_epoch : JS.Date.toISOString 0 = "1970-01-01T00:00:00.000Z"%string.
Proof. reflexivity. Qed.
Example toISOString_2025 : JS.Date.toISOString 1762128000123 = "2025-11-03T00:00:00.123Z"%string.
Proof. reflexivity. Qed.
Example toISOString_leap : JS.Date.toISOString 1709251199000 = "2024-02-29T23:59:59.000Z"%string.
Proof. reflexivity. Qed.
Example toISOString_max : JS.Date.toISOString 8640000000000000 = "+275760-09-13T00:00:00.000Z"%string.
Proof. reflexivity. Qed.
Example toISOString_min : JS.Date.toISOString (-8640000000000000) = "-271821-04-20T00:00:00.000Z"%string.
Proof. reflexivity. Qed.
Example toISOString_bc : JS.Date.toISOString (-62198755200000) = "-000001-01-01T00:00:00.000Z"%string.
Proof. reflexivity. Qed.
Example is_iso_ex : JS.Date.is_iso8601 (JS.Date.toISOString 1709251199000) = true.
Proof. reflexivity. Qed.
Example is_iso_bad : JS.Date.is_iso8601 "2023-02-29T23:59:59.000Z" = false.
Proof. reflexivity. Qed.
Example decimal_3000 : JS.to_string (JS.Num 3000) = "3000"%string.
Proof. reflexivity. Qed.

Lemma leap_cases y :
  (leap y = true /\ (y mod 4 = 0 /\ y mod 100 <> 0 \/ y mod 400 = 0)) \/
  (leap y = false /\ (y mod 4 <> 0 \/ y mod 100 = 0 /\ y mod 400 <> 0)).
Proof.
  unfold leap.
  destruct (Z.eqb_spec (y mod 4) 0), (Z.eqb_spec (y mod 100) 0), (Z.eqb_spec (y mod 400) 0);
    simpl; auto.
Qed.

Lemma DayFromYear_succ y : DayFromYear (y + 1) = DayFromYear y + DaysInYear y.
Proof.
  unfold DayFromYear, DaysInYear.
  destruct (leap_cases y) as [[-> H]|[-> H]].
  - destruct H as [[H4 H100]|H400].
    + Z.div_mod_to_equations. lia.
    + Z.div_mod_to_equations. lia.
  - destruct H as [H4|[H100 H400]].
    + Z.div_mod_to_equations. lia.
    + Z.div_mod_to_equations. lia.
Qed.

Lemma YearFromDay_spec d :
  DayFromYear (YearFromDay d) <= d < DayFromYear (YearFromDay d + 1).
Proof.
  unfold YearFromDay.
  set (y := 1970 + 400 * d / 146097).
  destruct (Z.ltb_spec d (DayFromYear y)) as [E1|E1].
  - replace (y - 1 + 1) with y by lia. split; [|lia].
    unfold DayFromYear in *. subst y. Z.div_mod_to_equations. lia.
  - destruct (Z.leb_spec (DayFromYear (y + 1)) d) as [E2|E2]; [|lia].
    split; [lia|].
    unfold DayFromYear in *. subst y. Z.div_mod_to_equations. lia.
Qed.

Lemma DayWithinYear_range t :
  0 <= DayWithinYear t < DaysInYear (YearFromTime t).
Proof.
  unfold DayWithinYear, YearFromTime.
  pose proof (YearFromDay_spec (Day t)) as H.
  rewrite DayFromYear_succ in H. lia.
Qed.

Lemma YearFromTime_range t :
  valid_time t -> -271821 <= YearFromTime t <= 275760.
Proof.
  unfold valid_time, maxTime, YearFromTime, Day, msPerDay. intros H.
  pose proof (YearFromDay_spec (t / 86400000)) as Hs.
  assert (Hd : -100000000 <= t / 86400000 <= 100000000) by (Z.div_mod_to_equations; lia).
  revert Hs. generalize (YearFromDay (t / 86400000)). intros y.
  unfold DayFromYear. intros Hs. Z.div_mod_to_equations. lia.
Qed.

Lemma month_date_valid y d :
  0 <= d < DaysInYear y ->
  1 <= month_of d (if leap y then 1 else 0) + 1 <= 12 /\
  1 <= date_of d (if leap y then 1 else 0)
    <= days_in_month y (month_of d (if leap y then 1 else 0) + 1).
Proof.
  unfold DaysInYear, date_of. intros H.
  destruct (leap y) eqn:El; unfold month_of;
    repeat match goal with
           | |- context [?a <? ?b] => destruct (Z.ltb_spec a b); [|]
           end; try lia;
    unfold days_in_month;
    match goal with
    | |- context [?n + 1] =>
        let v := eval vm_compute in (n + 1) in change (n + 1) with v
    end;
    cbv beta iota; rewrite ?El; lia.
Qed.

Lemma digit_cases d :
  0 <= d <= 9 ->
  d = 0 \/ d = 1 \/ d = 2 \/ d = 3 \/ d = 4 \/ d = 5 \/ d = 6 \/ d = 7 \/ d = 8 \/ d = 9.
Proof. lia. Qed.

Ltac each_digit H :=
  apply digit_cases in H;
  repeat (destruct H as [H|H]); subst; vm_compute; reflexivity.

Lemma digit_val_digit d : 0 <= d <= 9 -> digit_val (digit d) = Some d.
Proof. intros H. each_digit H. Qed.

Lemma digit_not_plus d : 0 <= d <= 9 -> Ascii.eqb (digit d) "+" = false.
Proof. intros H. each_digit H. Qed.

Lemma digit_not_minus d : 0 <= d <= 9 -> Ascii.eqb (digit d) "-" = false.
Proof. intros H. each_digit H. Qed.

Lemma digits_digit n acc d k :
  0 <= d <= 9 -> digits (S n) acc (String (digit d) k) = digits n (10 * acc + d) k.
Proof. intros H. cbn [digits]. now rewrite digit_val_digit. Qed.

Lemma digits_pad2 n acc v k :
  0 <= v < 100 -> digits (S (S n)) acc (pad2 v k) = digits n (100 * acc + v) k.
Proof.
  intros H. unfold pad2.
  rewrite 2!digits_digit by (Z.div_mod_to_equations; lia).
  f_equal. Z.div_mod_to_equations; lia.
Qed.

Lemma digits_pad3 acc v k :
  0 <= v < 1000 -> digits 3 acc (pad3 v k) = Some (1000 * acc + v, k).
Proof.
  intros H. unfold pad3.
  rewrite digits_digit by (Z.div_mod_to_equations; lia).
  rewrite digits_pad2 by (Z.div_mod_to_equations; lia).
  cbn [digits]. do 2 f_equal; Z.div_mod_to_equations; lia.
Qed.

Lemma digits_pad4 n acc v k :
  0 <= v < 10000 ->
  digits (S (S (S (S n)))) acc (pad4 v k) = digits n (10000 * acc + v) k.
Proof.
  intros H. unfold pad4.
  rewrite 2!digits_pad2 by (Z.div_mod_to_equations; lia).
  f_equal. Z.div_mod_to_equations; lia.
Qed.

Lemma digits_pad6 acc v k :
  0 <= v < 1000000 -> digits 6 acc (pad6 v k) = Some (1000000 * acc + v, k).
Proof.
  intros H. unfold pad6.
  rewrite digits_pad2 by (Z.div_mod_to_equations; lia).
  rewrite digits_pad4 by (Z.div_mod_to_equations; lia).
  cbn [digits]. do 2 f_equal; Z.div_mod_to_equations; lia.
Qed.

Lemma parse_format_year y k :
  -999999 <= y <= 999999 -> parse_year (format_year y k) = Some (y, k).
Proof.
  intros H. unfold format_year.
  destruct (Z.leb_spec 0 y) as [H0|H0]; cbn [andb].
  - destruct (Z.leb_spec y 9999) as [H1|H1].
    + assert (E : parse_year (pad4 y k) = digits 4 0 (pad4 y k)).
      { unfold pad4 at 1, pad2 at 1, parse_year.
        rewrite digit_not_plus, digit_not_minus by (Z.div_mod_to_equations; lia).
        reflexivity. }
      rewrite E, digits_pad4 by lia. cbn [digits]. do 2 f_equal; lia || reflexivity.
    + destruct (Z.ltb_spec y 0); [lia|].
      unfold parse_year. change (Ascii.eqb "+" "+") with true. cbv iota.
      rewrite digits_pad6 by lia. do 2 f_equal; lia || reflexivity.
  - destruct (Z.ltb_spec y 0); [|lia].
    unfold parse_year. change (Ascii.eqb "-" "+") with false.
    change (Ascii.eqb "-" "-") with true. cbv iota.
    rewrite digits_pad6 by lia.
    destruct (Z.eqb_spec (1000000 * 0 + - y) 0); [lia|]. do 2 f_equal; lia || reflexivity.
Qed.

Lemma digits_two v k :
  0 <= v < 100 -> digits 2 0 (pad2 v k) = Some (v, k).
Proof. intros H. now rewrite digits_pad2. Qed.

Lemma expect_same c k : expect c (String c k) = Some k.
Proof. unfold expect. now rewrite Ascii.eqb_refl. Qed.

Lemma parse_format f : printable f -> parse (format f) = Some f.
Proof.
  destruct f as [y mo d h mi se ms]. unfold printable. cbn [year month day hour minute second milli].
  intros (Hy & Hmo & Hd & Hh & Hmi & Hse & Hms).
  unfold parse, format. cbn [year month day hour minute second milli].
  rewrite parse_format_year by assumption. cbn [mbind option_bind].
  repeat (rewrite expect_same; cbn [mbind option_bind];
          rewrite digits_two by assumption; cbn [mbind option_bind]).
  rewrite expect_same; cbn [mbind option_bind].
  rewrite digits_pad3 by assumption. cbn [mbind option_bind].
  rewrite expect_same; cbn [mbind option_bind].
  cbn [String.eqb]. repeat f_equal; lia || reflexivity.
Qed.

Lemma time_of_day_range t :
  0 <= HourFromTime t <= 23 /\ 0 <= MinFromTime t <= 59 /\
  0 <= SecFromTime t <= 59 /\ 0 <= msFromTime t <= 999.
Proof.
  unfold HourFromTime, MinFromTime, SecFromTime, msFromTime, TimeWithinDay, msPerDay.
  repeat split; Z.div_mod_to_equations; lia.
Qed.

Lemma date_range t :
  1 <= MonthFromTime t + 1 <= 12 /\
  1 <= DateFromTime t <= days_in_month (YearFromTime t) (MonthFromTime t + 1).
Proof.
  unfold MonthFromTime, DateFromTime, InLeapYear.
  apply month_date_valid, DayWithinYear_range.
Qed.

Lemma days_in_month_le y m : days_in_month y m <= 31.
Proof.
  unfold days_in_month.
  repeat match goal with |- context [match ?x with _ => _ end] => destruct x end; lia.
Qed.


Lemma fields_of_printable t : valid_time t -> printable (fields_of t).
Proof.
  intros Ht.
  pose proof (time_of_day_range t) as (Hh & Hm & Hs & Hms).
  pose proof (date_range t) as (Hmo & Hd).
  pose proof (days_in_month_le (YearFromTime t) (MonthFromTime t + 1)).
  pose proof (YearFromTime_range t Ht).
  unfold printable, fields_of. cbn [year month day hour minute second milli]. lia.
Qed.


End DateFacts.

(* ===================================================================== *)
(** * Facts about the application *)
(* ===================================================================== *)

Import JS Node Express App.

(** ** Strings *)

Lemma append_cons c (a b : string) : String c a +:+ b = String c (a +:+ b).
Proof. reflexivity. Qed.

Lemma prefix_nil (s : string) : String.prefix "" s = true.
Proof. now destruct s. Qed.

Lemma prefix_app (a b : string) : String.prefix a (a +:+ b) = true.
Proof.
  induction a as [|c a IH]; [apply prefix_nil|].
  rewrite append_cons. cbn [String.prefix].
  destruct (ascii_dec c c); [exact IH|congruence].
Qed.


Lemma includes_app_r (a s sub : string) :
  includes s sub = true -> includes (a +:+ s) sub = true.
Proof.
  intros H. induction a as [|c a IH]; [exact H|].
  rewrite append_cons. cbn [includes]. rewrite IH. apply orb_true_r.
Qed.

Lemma includes_prefix (s sub : string) :
  String.prefix sub s = true -> includes s sub = true.
Proof. intros H. destruct s; cbn [includes]; now rewrite H. Qed.


Lemma includes_mid (a sub b : string) : includes (a +:+ sub +:+ b) sub = true.
Proof. apply includes_app_r, includes_prefix, prefix_app. Qed.


(** ** The chain *)

Lemma static_next root p req res : ∀ res', static root p req res = Next res' → res' = res.
Proof.
  intros res'. unfold static.
  repeat match goal with
         | |- context [match ?x with _ => _ end] => destruct x
         end; congruence.
Qed.

Lemma on_the_wire_GET req r : method req = GET → on_the_wire req r = r.
Proof. intros H. unfold on_the_wire. now rewrite H. Qed.

Lemma pass_app a b p req res :
  pass (a ++ b) p req res =
    match pass a p req res with
    | Next r => pass b p req r
    | End r => End r
    end.
Proof.
  revert res. induction a as [|m a IH]; intros res; [reflexivity|].
  cbn [pass List.app]. destruct (m p req res); [apply IH|reflexivity].
Qed.

(** What the three middleware make of a request. *)
Lemma pass_middleware p req :
  pass [cors; json_parser; static "public"] p req fresh_res =
    match method req with
    | OPTIONS => End (preflight res_at_routes)
    | _ =>
        match body_error req with
        | Some st => End (error_response st res_at_routes)
        | None => static "public" p req res_at_routes
        end
    end.
Proof.
  cbn [pass]. unfold cors, json_parser. fold res_at_routes.
  destruct (method req); try reflexivity;
    (destruct (body_error req); [reflexivity|]);
    now destruct (static "public" p req res_at_routes).
Qed.

(** A request that gets to the routes is no OPTIONS request, has a body
    [express.json()] accepts, and is passed on by [express.static]. *)
Lemma reaches_routes_iff p req :
  reaches_routes p req ↔
  method req ≠ OPTIONS ∧ body_error req = None ∧
  static "public" p req res_at_routes = Next res_at_routes.
Proof.
  unfold reaches_routes. rewrite pass_middleware. split.
  - intros H. destruct (method req); try discriminate H;
      (split; [discriminate|]); (destruct (body_error req); [discriminate H|]);
      (split; [reflexivity|exact H]).
  - intros (Hm & Hb & Hs). rewrite Hb, Hs. now destruct (method req).
Qed.

Lemma app_front p req :
  app p req =
    on_the_wire req
      match pass [cors; json_parser; static "public"] p req fresh_res with
      | Next r =>
          dispatch [get "/" home; get "/api/health" health; get "/api/info" info] p req r
      | End r => r
      end.
Proof.
  unfold app, dispatch, stack.
  change [cors; json_parser; static "public"; get "/" home; get "/api/health" health;
          get "/api/info" info]
    with ([cors; json_parser; static "public"] ++
          [get "/" home; get "/api/health" health; get "/api/info" info]).
  rewrite pass_app.
  now destruct (pass [cors; json_parser; static "public"] p req fresh_res).
Qed.

Lemma app_routes p req :
  reaches_routes p req →
  app p req =
    on_the_wire req
      (dispatch [get "/" home; get "/api/health" health; get "/api/info" info]
         p req res_at_routes).
Proof. intros H. rewrite app_front. unfold reaches_routes in H. now rewrite H. Qed.

Lemma app_options p req : method req = OPTIONS → app p req = preflight res_at_routes.
Proof.
  intros H. rewrite app_front, pass_middleware. unfold on_the_wire. now rewrite H.
Qed.

Lemma app_body_error p req st :
  method req ≠ OPTIONS → body_error req = Some st →
  app p req = on_the_wire req (error_response st res_at_routes).
Proof.
  intros Hm Hb. rewrite app_front, pass_middleware, Hb. now destruct (method req).
Qed.


(** The three routes answer GET requests for their own paths. *)
Lemma app_home p req :
  method req = GET → path req = "/"%string → reaches_routes p req →
  app p req = home p req res_at_routes.
Proof.
  intros Hm Hp H. rewrite (app_routes _ _ H), on_the_wire_GET by exact Hm.
  unfold dispatch. cbn [pass]. unfold get at 1. now rewrite Hm, Hp.
Qed.

Lemma app_health p req :
  method req = GET → path req = "/api/health"%string → reaches_routes p req →
  app p req = health p req res_at_routes.
Proof.
  intros Hm Hp H. rewrite (app_routes _ _ H), on_the_wire_GET by exact Hm.
  unfold dispatch. cbn [pass]. unfold get. now rewrite Hm, Hp.
Qed.

Lemma app_info p req :
  method req = GET → path req = "/api/info"%string → reaches_routes p req →
  app p req = info p req res_at_routes.
Proof.
  intros Hm Hp H. rewrite (app_routes _ _ H), on_the_wire_GET by exact Hm.
  unfold dispatch. cbn [pass]. unfold get. now rewrite Hm, Hp.
Qed.

(** ** The environment name and the port *)

Lemma or_prop_cases (e : gmap string string) k d :
  JS.or (prop e k) d =
    match e !! k with
    | Some v => if String.eqb v "" then d else Str v
    | None => d
    end.
Proof.
  unfold JS.or, prop. destruct (e !! k) as [v|]; [|reflexivity].
  cbn [truthy]. now destruct (String.eqb v "").
Qed.

Lemma environment_is_string p : environment p = Str (environment_name p).
Proof.
  unfold environment_name, environment. rewrite or_prop_cases.
  destruct (env p !! "NODE_ENV"%string) as [v|]; [|reflexivity].
  now destruct (String.eqb v "").
Qed.


Lemma environment_set p v :
  env p !! "NODE_ENV"%string = Some v -> v <> ""%string -> environment_name p = v.
Proof.
  intros H Hv. unfold environment_name, environment. rewrite or_prop_cases, H.
  apply String.eqb_neq in Hv. now rewrite Hv.
Qed.

Lemma info_body p req res :
  body (info p req res) =
    Json (JSON.JObject [
      ("status", JSON.JString "success");
      ("message", JSON.JString "Simple Blog App Node.js Application");
      ("version", JSON.JString "1.0.0");
      ("node_version", JSON.JString (version p));
      ("environment", JSON.JString (environment_name p));
      ("timestamp", JSON.JString (timestamp p))
    ]%string).
Proof.
  unfold info, json. cbn [body]. now rewrite environment_is_string.
Qed.

Lemma health_body p req res :
  body (health p req res) =
    Json (JSON.JObject [
      ("status", JSON.JString "healthy");
      ("timestamp", JSON.JString (timestamp p));
      ("uptime", JSON.JNumber (uptime p))
    ]%string).
Proof. reflexivity. Qed.

Lemma json_at_routes j :
  status (json j res_at_routes) = 200 /\
  media_type (json j res_at_routes) = Some "application/json"%string.
Proof. split; reflexivity. Qed.

Lemma send_at_routes t :
  status (send t res_at_routes) = 200 /\
  media_type (send t res_at_routes) = Some "text/html"%string.
Proof. split; reflexivity. Qed.

(** ** The life of the process *)

Lemma step_port s e : port (step s e) = port s /\ listening (step s e) = listening s.
Proof. split; reflexivity. Qed.

Lemma run_port s es : port (run s es) = port s /\ listening (run s es) = listening s.
Proof.
  revert s. induction es as [|e es IH]; intros s; [split; reflexivity|].
  cbn [run fold_left]. fold (run (step s e) es).
  destruct (IH (step s e)) as [-> ->]. apply step_port.
Qed.

Lemma step_clock s e :
  admissible e ->
  hr_start (proc (step s e)) = hr_start (proc s) /\
  hr_now (proc s) <= hr_now (proc (step s e)).
Proof.
  destruct e; cbn; intros H; split; try reflexivity; lia.
Qed.

Lemma run_clock s es :
  Forall admissible es ->
  hr_start (proc (run s es)) = hr_start (proc s) /\
  hr_now (proc s) <= hr_now (proc (run s es)).
Proof.
  intros H. revert s. induction H as [|e es He _ IH]; intros s.
  - split; [reflexivity|]. cbn. lia.
  - cbn [run fold_left]. fold (run (step s e) es).
    destruct (IH (step s e)) as [E1 E2].
    destruct (step_clock s e He) as [E3 E4].
    split; [congruence|lia].
Qed.

Lemma reachable_inv s :
  reachable s ->
  hr_start (proc s) <= hr_now (proc s) /\ JS.Date.valid_time (wall (proc s)).
Proof.
  induction 1 as [p [H1 H2]|s e _ [IH1 IH2] He].
  - cbn. split; [lia|assumption].
  - destruct e; cbn in *; (split; [lia|assumption]).
Qed.


Lemma uptime_le p q :
  hr_start q = hr_start p -> hr_now p <= hr_now q -> (uptime p <= uptime q)%Q.
Proof.
  intros H1 H2. unfold uptime. rewrite H1.
  apply DoubleFacts.div_mono; [reflexivity|]. apply DoubleFacts.of_Z_mono. lia.
Qed.


Lemma reachable_run s es : reachable s -> Forall admissible es -> reachable (run s es).
Proof.
  intros Hs H. revert s Hs. induction H as [|e es He _ IH]; intros s Hs; [exact Hs|].
  cbn [run fold_left]. apply IH. now constructor.
Qed.

(** A response depends on the process only through what the handlers and
    [express.static] read. *)
Lemma static_ext p q req res :
  files p = files q -> dirs p = dirs q -> content_types p = content_types q ->
  static "public" p req res = static "public" q req res.
Proof.
  intros Hf Hd Hc. unfold static, file_response, content_type. now rewrite Hf, Hd, Hc.
Qed.

Lemma reaches_routes_ext p q req :
  files p = files q -> dirs p = dirs q -> content_types p = content_types q ->
  reaches_routes p req -> reaches_routes q req.
Proof.
  intros Hf Hd Hc. unfold reaches_routes. rewrite !pass_middleware.
  now rewrite (static_ext p q req _ Hf Hd Hc).
Qed.

Lemma app_ext p q req :
  files p = files q -> dirs p = dirs q -> content_types p = content_types q ->
  version p = version q -> environment p = environment q ->
  timestamp p = timestamp q -> uptime p = uptime q ->
  app p req = app q req.
Proof.
  intros Hf Hd Hc Hv He Ht Hu. rewrite !app_front, !pass_middleware.
  rewrite (static_ext p q req _ Hf Hd Hc). unfold dispatch. cbn [pass]. unfold get.
  assert (E1 : home p req = home q req).
  { unfold home, home_page, environment_name. now rewrite Hv, He, Ht. }
  assert (E2 : health p req = health q req).
  { unfold health. now rewrite Ht, Hu. }
  assert (E3 : info p req = info q req).
  { unfold info. now rewrite Hv, He, Ht. }
  now rewrite E1, E2, E3.
Qed.

Lemma environment_other_key p k v :
  k <> "NODE_ENV"%string ->
  environment (set_env k v p) = environment p /\
  environment (unset_env k p) = environment p.
Proof.
  intros Hk. unfold environment, prop. cbn [env set_env unset_env].
  now rewrite lookup_insert_ne, lookup_delete_ne.
Qed.

Lemma app_other_key p k v req :
  k <> "NODE_ENV"%string ->
  app (set_env k v p) req = app p req /\ app (unset_env k p) req = app p req.
Proof.
  intros Hk. destruct (environment_other_key p k v Hk) as [E1 E2].
  split; now apply app_ext.
Qed.

Lemma environment_name_set p v :
  v <> ""%string -> environment_name (set_env "NODE_ENV" v p) = v.
Proof.
  intros Hv. apply environment_set; [|assumption].
  cbn [env set_env]. apply lookup_insert_eq.
Qed.

Lemma environment_name_cases p :
  environment_name p =
    match env p !! "NODE_ENV"%string with
    | Some v => if String.eqb v "" then "development"%string else v
    | None => "development"%string
    end.
Proof.
  unfold environment_name, environment. rewrite or_prop_cases.
  destruct (env p !! "NODE_ENV"%string) as [v|]; [|reflexivity].
  now destruct (String.eqb v "").
Qed.

(** What [express.static] answers with is a file or a redirect. *)
Lemma static_body root p req res r :
  static root p req res = End r ->
  (exists content, body r = File content) \/ (exists location, body r = Redirecting location).
Proof.
  unfold static.
  repeat match goal with
         | |- context [match ?x with _ => _ end] => destruct x
         end; intros H; try discriminate H; injection H as <-; cbn; eauto.
Qed.


Lemma on_the_wire_headers req r : headers (on_the_wire req r) = headers r.
Proof. unfold on_the_wire. now destruct (method req). Qed.

(** A JSON document in answer to a GET request for [/api/health] is the
    document of the route. *)
Lemma health_json_inv p req j :
  method req = GET -> path req = "/api/health"%string ->
  body (app p req) = Json j ->
  app p req = health p req res_at_routes.
Proof.
  intros Hm Hp Hj. rewrite app_front, pass_middleware, Hm, on_the_wire_GET in * by exact Hm.
  destruct (body_error req); [discriminate Hj|].
  destruct (static "public" p req res_at_routes) as [r|r] eqn:Hs.
  - rewrite (static_next _ _ _ _ _ Hs). unfold dispatch. cbn [pass]. unfold get.
    now rewrite Hm, Hp.
  - apply static_body in Hs as [[c Hc]|[l Hl]]; congruence.
Qed.

Lemma uptime_of_inv p req u :
  method req = GET -> path req = "/api/health"%string ->
  uptime_of (app p req) = Some u -> u = uptime p.
Proof.
  intros Hm Hp Hu. unfold uptime_of in Hu.
  destruct (body (app p req)) as [| j | | | | |] eqn:Hb; try discriminate Hu.
  rewrite (health_json_inv p req j Hm Hp Hb) in Hb. cbn in Hb. injection Hb as <-.
  cbn in Hu. congruence.
Qed.

(* ===================================================================== *)
(** * Properties of the service *)
(* ===================================================================== *)

Lemma sample_reachable : reachable (start sample).
Proof.
  apply reachable_start. split; [reflexivity|].
  unfold JS.Date.valid_time, JS.Date.maxTime. cbn. lia.
Qed.


Example startup_lines :
  stdout (start sample) =
    [ "🚀 Simple Blog App server running on port 3000";
      "📍 Environment: development" ]%string.
Proof. vm_compute. reflexivity. Qed.

Example health_keys :
  match body (respond (start sample) GET_health) with
  | Json j => JSON.keys j
  | _ => []
  end = [ "status"; "timestamp"; "uptime" ]%string.
Proof. reflexivity. Qed.

Example post_not_found :
  status (app sample {| method := POST; path := "/api/info"; body_error := None |}) = 404.
Proof. reflexivity. Qed.

Example uppercase_health :
  status (app sample {| method := GET; path := "/API/Health/"; body_error := None |}) = 200.
Proof. reflexivity. Qed.

Example malformed_body :
  status (app sample {| method := GET; path := "/api/health"; body_error := Some 400 |}) = 400.
Proof. reflexivity. Qed.

(** ** GET /api/info *)




(** ** GET /api/health *)




(** ** The port *)

(** C3, as the specification states it, fails: with [PORT=abc], a value that
    is not a number, [app.listen] is given the string "abc" and not the
    default 3000. *)
Lemma port_default_counterexample :
  env (set_env "PORT" "abc" sample) !! "PORT"%string = Some "abc"%string /\
  JS.numeric "abc" = false /\
  listening (start (set_env "PORT" "abc" sample)) = JS.Str "abc" /\
  listening (start (set_env "PORT" "abc" sample)) <> JS.Num 3000.
Proof. repeat split; try reflexivity. discriminate. Qed.

(** C3, amended. [app.listen] is given the value of [PORT] whenever the
    variable is set to a string that is not empty, numeric or not, and 3000
    when the variable is unset or empty. With [PORT=8080] it is given
    "8080", which is port 8080 and not 3000, and the startup line names
    that port. *)
Theorem port_from_environment (p : Process) :
  listening (start p) =
    match env p !! "PORT"%string with
    | Some v => if String.eqb v "" then JS.Num 3000 else JS.Str v
    | None => JS.Num 3000
    end /\
  listening (start (set_env "PORT" "8080" p)) = JS.Str "8080" /\
  tcp_port (listening (start (set_env "PORT" "8080" p))) = Some 8080 /\
  stdout (start (set_env "PORT" "8080" p)) !! 0%nat =
    Some "🚀 Simple Blog App server running on port 8080"%string.
Proof.
  split; [apply or_prop_cases|].
  assert (E : PORT (set_env "PORT" "8080" p) = JS.Str "8080").
  { unfold PORT. rewrite or_prop_cases. cbn [env set_env].
    now rewrite lookup_insert_eq. }
  unfold start. cbn [listening stdout]. rewrite E.
  split; [reflexivity|]. split; vm_compute; reflexivity.
Qed.

(** C9. When [PORT] is set to the empty string the server falls back to
    3000: the default replaces every falsy value of [process.env.PORT], not
    only a missing one; a value that is not empty is used as it is, numeric
    or not. *)
Theorem port_falsy_default (p : Process) :
  (env p !! "PORT"%string = Some ""%string -> port (start p) = JS.Num 3000) /\
  (JS.truthy (JS.prop (env p) "PORT") = false ->
     port (start p) = JS.Num 3000 /\ listening (start p) = JS.Num 3000) /\
  (forall v, env p !! "PORT"%string = Some v -> v <> ""%string ->
     port (start p) = JS.Str v /\ listening (start p) = JS.Str v).
Proof.
  unfold start. cbn [port listening]. unfold PORT.
  split; [|split].
  - intros H. now rewrite or_prop_cases, H.
  - intros H. unfold JS.or. now rewrite H.
  - intros v H Hv. rewrite or_prop_cases, H.
    apply String.eqb_neq in Hv. now rewrite Hv.
Qed.

Lemma port_falsy_default_witness :
  port (start (set_env "PORT" "" sample)) = JS.Num 3000 /\
  (port (start (set_env "PORT" "" sample)) = JS.Num 3000 /\
   listening (start (set_env "PORT" "" sample)) = JS.Num 3000) /\
  (port (start (set_env "PORT" "http" sample)) = JS.Str "http" /\
   listening (start (set_env "PORT" "http" sample)) = JS.Str "http").
Proof.
  split; [|split].
  - apply (port_falsy_default (set_env "PORT" "" sample)). reflexivity.
  - apply (port_falsy_default (set_env "PORT" "" sample)). reflexivity.
  - apply (port_falsy_default (set_env "PORT" "http" sample));
      [reflexivity | discriminate].
Defined.

(** ** The configuration *)

(** C4, as the specification states it, fails: the handlers read
    [process.env.NODE_ENV] again at every request, so a change of the
    variable after the start changes the answer of [/api/info]. *)
Lemma environment_reread_counterexample :
  reachable (start sample) /\
  admissible (SetEnv "NODE_ENV" "production") /\
  member "environment" (respond (start sample) GET_info) =
    Some (JSON.JString "development") /\
  member "environment" (respond (step (start sample) (SetEnv "NODE_ENV" "production")) GET_info) =
    Some (JSON.JString "production") /\
  respond (step (start sample) (SetEnv "NODE_ENV" "production")) GET_info <>
    respond (start sample) GET_info.
Proof.
  split; [apply sample_reachable|]. split; [exact I|].
  split; [reflexivity|]. split; [reflexivity|].
  intros H. apply (f_equal (member "environment")) in H.
  vm_compute in H. discriminate H.
Qed.

(** C4, amended. The port is read from the environment once, when the
    process starts, and does not change afterwards: whatever happens to the
    process, the constant [PORT] and the argument [app.listen] was given
    stay what they were, and setting or removing [PORT] changes no response.
    The environment name is not kept: the handlers of [/] and [/api/info]
    read [NODE_ENV] at every request and report the value it has then. *)
Theorem port_fixed_environment_reread (s : Server) (es : list Event) (v : string) (req : Request) :
  (port (run s es) = port s /\ listening (run s es) = listening s) /\
  respond (step s (SetEnv "PORT" v)) req = respond s req /\
  respond (step s (UnsetEnv "PORT")) req = respond s req /\
  (v <> ""%string -> method req = GET -> reaches_routes (proc s) req ->
   (path req = "/api/info"%string ->
      member "environment" (respond (step s (SetEnv "NODE_ENV" v)) req) =
        Some (JSON.JString v)) /\
   (path req = "/"%string ->
      body (respond (step s (SetEnv "NODE_ENV" v)) req) =
        Text (page_head +:+ version (proc s) +:+
              page_after_version +:+ v +:+
              page_after_environment +:+ timestamp (proc s) +:+
              page_tail))).
Proof.
  split; [apply run_port|].
  unfold respond, step. cbn [proc on_process].
  assert (Hk : "PORT"%string <> "NODE_ENV"%string) by discriminate.
  destruct (app_other_key (proc s) "PORT" v req Hk) as [E1 E2].
  split; [exact E1|]. split; [exact E2|].
  intros Hv Hm Hr.
  assert (Hr' : reaches_routes (set_env "NODE_ENV" v (proc s)) req)
    by now apply (reaches_routes_ext (proc s)).
  split; intros Hp.
  - rewrite (app_info _ _ Hm Hp Hr'). unfold member.
    rewrite info_body, environment_name_set by assumption. reflexivity.
  - rewrite (app_home _ _ Hm Hp Hr'). unfold home, send. cbn [body].
    unfold home_page. rewrite environment_name_set by assumption. reflexivity.
Qed.

Lemma port_fixed_environment_reread_witness :
  member "environment" (respond (step (start sample) (SetEnv "NODE_ENV" "staging")) GET_info) =
    Some (JSON.JString "staging").
Proof.
  apply (port_fixed_environment_reread (start sample) [] "staging" GET_info);
    [discriminate | reflexivity | reflexivity | reflexivity].
Defined.




(** ** Uptime *)

(** C6. Of two GET requests for [/api/health] in the life of one process,
    the second reports an uptime that is at least the uptime the first
    reported, whatever happened to the process in between: whenever both
    responses carry an uptime, the second is not below the first. *)
Theorem uptime_monotone (s : Server) (es : list Event) (req1 req2 : Request) (u1 u2 : Q) :
  Forall admissible es ->
  method req1 = GET -> path req1 = "/api/health"%string ->
  method req2 = GET -> path req2 = "/api/health"%string ->
  uptime_of (respond s req1) = Some u1 ->
  uptime_of (respond (run s es) req2) = Some u2 ->
  (u1 <= u2)%Q.
Proof.
  intros Hes Hm1 Hp1 Hm2 Hp2 H1 H2. unfold respond in *.
  rewrite (uptime_of_inv _ _ _ Hm1 Hp1 H1), (uptime_of_inv _ _ _ Hm2 Hp2 H2).
  destruct (run_clock s es Hes) as [E1 E2]. now apply uptime_le.
Qed.

Lemma uptime_monotone_witness :
  (uptime sample <= uptime (proc (run (start sample) [Elapse 1500000000; SetClock 0])))%Q.
Proof.
  apply (uptime_monotone (start sample) [Elapse 1500000000; SetClock 0] GET_health GET_health);
    try reflexivity.
  repeat constructor; unfold JS.Date.valid_time, JS.Date.maxTime; cbn; lia.
Defined.

(** ** GET / *)




(** ** Other paths *)




(** ** The health status *)




(* ===================================================================== *)
(** * Further properties of the chain *)
(* ===================================================================== *)

Lemma default_type_other v (h : gmap string string) k :
  k <> "Content-Type"%string -> default_type v h !! k = h !! k.
Proof.
  intros Hk. unfold default_type.
  destruct (h !! "Content-Type"%string); [reflexivity|].
  now rewrite lookup_insert_ne.
Qed.

Lemma cors_header_at_routes :
  hdrs res_at_routes !! "Access-Control-Allow-Origin"%string = Some "*"%string.
Proof. reflexivity. Qed.

Lemma static_headers root p req res r k :
  k <> "Content-Type"%string -> k <> "Location"%string ->
  static root p req res = End r -> headers r !! k = hdrs res !! k.
Proof.
  intros H1 H2. unfold static.
  repeat match goal with
         | |- context [match ?x with _ => _ end] => destruct x
         end; intros H; try discriminate H; injection H as <-; cbn [headers file_response redirect];
    now rewrite ?lookup_insert_ne by congruence.
Qed.

Lemma routes_headers p req k :
  k <> "Content-Type"%string ->
  headers (dispatch [get "/" home; get "/api/health" health; get "/api/info" info]
             p req res_at_routes) !! k = hdrs res_at_routes !! k.
Proof.
  intros Hk. unfold dispatch. cbn [pass]. unfold get, home, health, info, send, json, finalhandler.
  destruct (method req);
    repeat match goal with
           | |- context [route_matches ?a ?b] => destruct (route_matches a b)
           end; cbn [headers];
    rewrite ?default_type_other, ?lookup_insert_ne by congruence; reflexivity.
Qed.

(** X1. Every response of the application, whichever layer writes it,
    carries the header [Access-Control-Allow-Origin: *] that [cors()] set. *)
Theorem cors_on_every_response (p : Process) (req : Request) :
  headers (app p req) !! "Access-Control-Allow-Origin"%string = Some "*"%string.
Proof.
  rewrite app_front, on_the_wire_headers, pass_middleware.
  destruct (method req);
    try (unfold preflight; cbn [headers]; now rewrite lookup_insert_ne);
    (destruct (body_error req);
     [unfold error_response; cbn [headers]; now rewrite lookup_insert_ne|]);
    (destruct (static "public" p req res_at_routes) as [r|r] eqn:Hs;
     [rewrite (static_next _ _ _ _ _ Hs), routes_headers by discriminate; reflexivity
     |rewrite (static_headers _ _ _ _ _ "Access-Control-Allow-Origin"
                 ltac:(discriminate) ltac:(discriminate) Hs);
      reflexivity]).
Qed.

(** ** The environment name *)

(** X5. The environment name [/api/info] reports is never the empty
    string: an empty [NODE_ENV] is reported as "development", like a
    missing one, and any other value is reported as it is. *)
Theorem environment_never_empty (p : Process) :
  reaches_routes p GET_info ->
  exists name : string,
    member "environment" (app p GET_info) = Some (JSON.JString name) /\
    name <> ""%string /\
    (env p !! "NODE_ENV"%string = Some ""%string -> name = "development"%string) /\
    (forall v, env p !! "NODE_ENV"%string = Some v -> v <> ""%string -> name = v).
Proof.
  intros Hr. exists (environment_name p).
  rewrite (app_info p GET_info eq_refl eq_refl Hr). unfold member. rewrite info_body.
  split; [reflexivity|]. rewrite environment_name_cases.
  split; [|split].
  - destruct (env p !! "NODE_ENV"%string) as [v|]; [|intros H; discriminate H].
    destruct (String.eqb_spec v ""); [intros H; discriminate H|assumption].
  - now intros ->.
  - intros v -> Hv. apply String.eqb_neq in Hv. now rewrite Hv.
Qed.

Lemma environment_never_empty_witness :
  exists name : string,
    member "environment" (app (set_env "NODE_ENV" "" sample) GET_info) =
      Some (JSON.JString name) /\
    name <> ""%string /\
    (env (set_env "NODE_ENV" "" sample) !! "NODE_ENV"%string = Some ""%string ->
       name = "development"%string) /\
    (forall v, env (set_env "NODE_ENV" "" sample) !! "NODE_ENV"%string = Some v ->
       v <> ""%string -> name = v).
Proof.
  apply (environment_never_empty (set_env "NODE_ENV" "" sample)). reflexivity.
Defined.

(** X6. No environment variable other than [NODE_ENV] has any influence on
    any response, and the answer to a request for [/api/health] depends on
    no environment variable at all. *)
Theorem only_NODE_ENV_is_read (p : Process) (k v : string) (req : Request) :
  (k <> "NODE_ENV"%string ->
     app (set_env k v p) req = app p req /\ app (unset_env k p) req = app p req) /\
  (path req = "/api/health"%string ->
     app (set_env k v p) req = app p req /\ app (unset_env k p) req = app p req).
Proof.
  split; [apply app_other_key|].
  intros Hp.
  assert (E : forall q, files q = files p -> dirs q = dirs p ->
                content_types q = content_types p -> uptime q = uptime p ->
                timestamp q = timestamp p -> app q req = app p req).
  { intros q Hf Hd Hc Hu Ht. rewrite !app_front, !pass_middleware.
    rewrite (static_ext q p req _ Hf Hd Hc). unfold dispatch. cbn [pass]. unfold get.
    rewrite Hp. change (route_matches "/" "/api/health") with false.
    change (route_matches "/api/health" "/api/health") with true. cbv iota.
    assert (Eh : health q req = health p req) by (unfold health; now rewrite Hu, Ht).
    now rewrite Eh. }
  split; now apply E.
Qed.

Lemma only_NODE_ENV_is_read_witness :
  (app (set_env "HOME" "/srv" sample) GET_info = app sample GET_info /\
   app (unset_env "HOME" sample) GET_info = app sample GET_info) /\
  (app (set_env "NODE_ENV" "production" sample) GET_health = app sample GET_health /\
   app (unset_env "NODE_ENV" sample) GET_health = app sample GET_health).
Proof.
  split.
  - apply (proj1 (only_NODE_ENV_is_read sample "HOME" "/srv" GET_info)). discriminate.
  - apply (proj2 (only_NODE_ENV_is_read sample "NODE_ENV" "production" GET_health)).
    reflexivity.
Defined.

(** ** The home page *)

Lemma append_assoc (a b c : string) : (a +:+ b) +:+ c = a +:+ b +:+ c.
Proof.
  induction a as [|x a IH]; [reflexivity|].
  rewrite !append_cons. now rewrite IH.
Qed.

Lemma includes_three (a x y z d : string) :
  includes (a +:+ x +:+ y +:+ z +:+ d) (x +:+ y +:+ z) = true.
Proof.
  apply includes_app_r, includes_prefix.
  replace (x +:+ y +:+ z +:+ d) with ((x +:+ y +:+ z) +:+ d)
    by now rewrite !append_assoc.
  apply prefix_app.
Qed.

(** X8. The home page shows each of the three values between its label
    and the end of the paragraph, character for character as the value is:
    nothing of it is escaped or cut. *)
Theorem home_page_labels (p : Process) :
  includes (home_page p)
    ("<strong>Node.js Version:</strong> " +:+ version p +:+ "</p>") = true /\
  includes (home_page p)
    ("<strong>Environment:</strong> " +:+ environment_name p +:+ "</p>") = true /\
  includes (home_page p)
    ("<strong>Timestamp:</strong> " +:+ timestamp p +:+ "</p>") = true.
Proof.
  assert (E1 : exists a, page_head = a +:+ "<strong>Node.js Version:</strong> ").
  { exists (String.substring 0
              (String.length page_head
               - String.length "<strong>Node.js Version:</strong> ") page_head).
    vm_compute. reflexivity. }
  assert (E2 : exists a, page_after_version = "</p>" +:+ a +:+ "<strong>Environment:</strong> ").
  { exists (String.substring 4
              (String.length page_after_version
               - String.length "</p><strong>Environment:</strong> ") page_after_version).
    vm_compute. reflexivity. }
  assert (E3 : exists a,
             page_after_environment = "</p>" +:+ a +:+ "<strong>Timestamp:</strong> ").
  { exists (String.substring 4
              (String.length page_after_environment
               - String.length "</p><strong>Timestamp:</strong> ") page_after_environment).
    vm_compute. reflexivity. }
  assert (E4 : exists a, page_tail = "</p>" +:+ a).
  { exists (String.substring 4 (String.length page_tail - 4) page_tail).
    vm_compute. reflexivity. }
  destruct E1 as [a1 E1], E2 as [a2 E2], E3 as [a3 E3], E4 as [a4 E4].
  unfold home_page. rewrite E1, E2, E3, E4. rewrite !append_assoc.
  split; [|split].
  - apply includes_three.
  - do 4 apply includes_app_r. apply includes_three.
  - do 8 apply includes_app_r. apply (includes_three a3).
Qed.

(** ** Timestamps *)

Module TimestampFacts.

Import JS.Date DateFacts.

Lemma month_date_injective y d1 d2 :
  0 <= d1 < DaysInYear y -> 0 <= d2 < DaysInYear y ->
  month_of d1 (if leap y then 1 else 0) = month_of d2 (if leap y then 1 else 0) ->
  date_of d1 (if leap y then 1 else 0) = date_of d2 (if leap y then 1 else 0) ->
  d1 = d2.
Proof.
  unfold DaysInYear, date_of. intros H1 H2 Hm. rewrite <- Hm. clear Hm.
  destruct (leap y); unfold month_of;
    repeat match goal with
           | |- context [?a <? ?b] => destruct (Z.ltb_spec a b)
           end; lia.
Qed.

Lemma time_within_day_fields t :
  TimeWithinDay t =
    HourFromTime t * 3600000 + MinFromTime t * 60000 + SecFromTime t * 1000 + msFromTime t.
Proof.
  unfold HourFromTime, MinFromTime, SecFromTime, msFromTime, TimeWithinDay, msPerDay.
  Z.div_mod_to_equations. lia.
Qed.

Lemma time_from_parts t : t = Day t * msPerDay + TimeWithinDay t.
Proof. unfold Day, TimeWithinDay, msPerDay. Z.div_mod_to_equations. lia. Qed.

Lemma fields_of_injective t1 t2 : fields_of t1 = fields_of t2 -> t1 = t2.
Proof.
  unfold fields_of. intros H. injection H as Hy Hmo Hd Hh Hmi Hs Hms.
  assert (Hw : TimeWithinDay t1 = TimeWithinDay t2).
  { rewrite !time_within_day_fields. congruence. }
  assert (Hday : Day t1 = Day t2).
  { pose proof (DayWithinYear_range t1) as R1.
    pose proof (DayWithinYear_range t2) as R2.
    unfold MonthFromTime, DateFromTime, InLeapYear in *.
    rewrite <- Hy in *.
    assert (E : DayWithinYear t1 = DayWithinYear t2).
    { apply (month_date_injective (YearFromTime t1)); [assumption|assumption|lia|assumption]. }
    unfold DayWithinYear in E. rewrite <- Hy in E. lia. }
  rewrite (time_from_parts t1), (time_from_parts t2). congruence.
Qed.

Lemma toISOString_injective t1 t2 :
  valid_time t1 -> valid_time t2 -> toISOString t1 = toISOString t2 -> t1 = t2.
Proof.
  intros H1 H2 E. apply fields_of_injective.
  assert (P : parse (toISOString t1) = parse (toISOString t2)) by now rewrite E.
  unfold toISOString in P.
  rewrite !parse_format in P by now apply fields_of_printable.
  congruence.
Qed.

End TimestampFacts.

(** X10. The timestamp of a response tells the instant to the millisecond:
    two reachable states whose timestamps read the same have the same wall
    clock. *)
Theorem timestamp_identifies_instant (s1 s2 : Server) :
  reachable s1 -> reachable s2 ->
  timestamp (proc s1) = timestamp (proc s2) ->
  wall (proc s1) = wall (proc s2).
Proof.
  intros H1 H2 E.
  apply reachable_inv in H1 as [_ H1]. apply reachable_inv in H2 as [_ H2].
  now apply TimestampFacts.toISOString_injective.
Qed.

Lemma timestamp_identifies_instant_witness :
  wall (proc (step (start sample) (SetClock 1762128000123))) = wall (proc (start sample)).
Proof.
  apply (timestamp_identifies_instant
           (step (start sample) (SetClock 1762128000123)) (start sample)).
  - apply reachable_step; [apply sample_reachable|].
    unfold admissible, JS.Date.valid_time, JS.Date.maxTime. lia.
  - apply sample_reachable.
  - reflexivity.
Defined.

(** ** Static files *)

Lemma head_dot_append (acc : string) c :
  match acc with String a _ => Ascii.eqb a "." | EmptyString => Ascii.eqb c "." end = false ->
  match acc +:+ String c EmptyString with
  | String a _ => Ascii.eqb a "."
  | EmptyString => false
  end = false.
Proof. destruct acc as [|a r]; [|rewrite append_cons]; now intros H. Qed.









(** X12. The answer to a request with a plain path depends on the files
    only through the file [express.static] looks for, under the name of
    the path and as [index.html] below it: writing or removing another
    file changes nothing. *)
Theorem other_files_do_not_matter (p : Process) (name content : string) (req : Request) :
  plain_path (path req) = true ->
  name <> "public" +:+ path req ->
  name <> "public" +:+ path req +:+ "index.html" ->
  app (write_file name content p) req = app p req /\
  app (remove_file name p) req = app p req.
Proof.
  intros _ H1 H2.
  assert (E : forall q, files q !! ("public" +:+ path req) = files p !! ("public" +:+ path req) ->
                files q !! ("public" +:+ path req +:+ "index.html")
                  = files p !! ("public" +:+ path req +:+ "index.html") ->
                dirs q = dirs p -> content_types q = content_types p ->
                version q = version p -> environment q = environment p ->
                timestamp q = timestamp p -> uptime q = uptime p ->
                app q req = app p req).
  { intros q Hf1 Hf2 Hd Hc Hv He Ht Hu. rewrite !app_front, !pass_middleware.
    assert (Es : static "public" q req res_at_routes = static "public" p req res_at_routes).
    { unfold static, file_response, content_type. now rewrite Hf1, Hf2, Hd, Hc. }
    rewrite Es. unfold dispatch. cbn [pass]. unfold get.
    assert (E1 : home q req = home p req).
    { unfold home, home_page, environment_name. now rewrite Hv, He, Ht. }
    assert (E2 : health q req = health p req) by (unfold health; now rewrite Ht, Hu).
    assert (E3 : info q req = info p req) by (unfold info; now rewrite Hv, He, Ht).
    now rewrite E1, E2, E3. }
  split; apply E; cbn [files write_file remove_file]; try reflexivity;
    now rewrite ?lookup_insert_ne, ?lookup_delete_ne by assumption.
Qed.

Lemma other_files_do_not_matter_witness :
  app (write_file "public/style.css" "body {}" sample) GET_home = app sample GET_home /\
  app (remove_file "public/style.css" sample) GET_home = app sample GET_home.
Proof.
  apply (other_files_do_not_matter sample "public/style.css" "body {}" GET_home);
    [reflexivity | vm_compute; discriminate | vm_compute; discriminate].
Defined.

(** ** Methods *)

(** X3. Routes are registered with [app.get] only: a request with a
    method other than GET, HEAD and OPTIONS, a plain path and a body
    [express.json()] accepts gets the default 404, whatever its path (the
    three route paths included) and whatever the static directory holds. *)
Theorem other_methods_not_found (p : Process) (req : Request) :
  method req <> GET -> method req <> HEAD -> method req <> OPTIONS ->
  plain_path (path req) = true ->
  body_error req = None ->
  app p req = finalhandler req res_at_routes /\
  status (app p req) = 404 /\
  body (app p req) = ErrorPage ("Cannot " +:+ method_name (method req) +:+ " " +:+ path req).
Proof.
  intros Hg Hh Ho _ Hb.
  assert (E : app p req = finalhandler req res_at_routes).
  { rewrite app_front, pass_middleware, Hb. unfold static, on_the_wire, dispatch.
    cbn [pass]. unfold get. destruct (method req); congruence. }
  rewrite E. repeat split.
Qed.

Lemma other_methods_not_found_witness :
  app sample {| method := POST; path := "/api/info"; body_error := None |} =
    finalhandler {| method := POST; path := "/api/info"; body_error := None |} res_at_routes /\
  status (app sample {| method := POST; path := "/api/info"; body_error := None |}) = 404 /\
  body (app sample {| method := POST; path := "/api/info"; body_error := None |}) =
    ErrorPage "Cannot POST /api/info".
Proof.
  apply (other_methods_not_found sample
           {| method := POST; path := "/api/info"; body_error := None |});
    [discriminate | discriminate | discriminate | reflexivity | reflexivity].
Defined.

(** X15. An OPTIONS request is answered by [cors()] with status 204, the
    methods it allows and no body, whatever its path and its body: it
    gets to no route and to no file. *)
Theorem options_preflight (p : Process) (req : Request) :
  method req = OPTIONS ->
  status (app p req) = 204 /\
  body (app p req) = Empty /\
  headers (app p req) !! "Access-Control-Allow-Origin"%string = Some "*"%string /\
  headers (app p req) !! "Access-Control-Allow-Methods"%string =
    Some "GET,HEAD,PUT,PATCH,POST,DELETE"%string.
Proof.
  intros H. rewrite (app_options _ _ H). repeat split.
Qed.

Lemma options_preflight_witness :
  status (app sample {| method := OPTIONS; path := "/api/health"; body_error := Some 400 |})
    = 204 /\
  body (app sample {| method := OPTIONS; path := "/api/health"; body_error := Some 400 |})
    = Empty /\
  headers (app sample {| method := OPTIONS; path := "/api/health"; body_error := Some 400 |})
    !! "Access-Control-Allow-Origin"%string = Some "*"%string /\
  headers (app sample {| method := OPTIONS; path := "/api/health"; body_error := Some 400 |})
    !! "Access-Control-Allow-Methods"%string = Some "GET,HEAD,PUT,PATCH,POST,DELETE"%string.
Proof.
  apply (options_preflight sample
           {| method := OPTIONS; path := "/api/health"; body_error := Some 400 |}).
  reflexivity.
Defined.

Lemma static_as_get p req res :
  method req = HEAD -> static "public" p (as_get req) res = static "public" p req res.
Proof. intros H. unfold static, as_get. cbn [method path]. now rewrite H. Qed.

(** X16. A HEAD request is answered as the GET request for the same path
    is, by the routes of [app.get] and by [express.static] alike, with
    the same status and the same content type, and without the body. *)
Theorem head_as_get (p : Process) (req : Request) :
  method req = HEAD ->
  status (app p req) = status (app p (as_get req)) /\
  headers (app p req) !! "Content-Type"%string =
    headers (app p (as_get req)) !! "Content-Type"%string /\
  body (app p req) = Empty.
Proof.
  intros H.
  assert (E : app p req =
              {| status := status (app p (as_get req));
                 headers := headers (app p (as_get req));
                 body := Empty |}).
  { rewrite !app_front, !pass_middleware, (static_as_get _ _ _ H).
    unfold on_the_wire, as_get. cbn [method path body_error]. rewrite H.
    destruct (body_error req); [reflexivity|].
    destruct (static "public" p req res_at_routes); [|reflexivity].
    unfold dispatch. cbn [pass]. unfold get. cbn [method path]. rewrite H.
    repeat match goal with
           | |- context [route_matches ?a ?b] => destruct (route_matches a b)
           end; reflexivity. }
  rewrite E. repeat split.
Qed.

Lemma head_as_get_witness :
  status (app sample {| method := HEAD; path := "/api/health"; body_error := None |}) =
    status (app sample (as_get {| method := HEAD; path := "/api/health"; body_error := None |})) /\
  headers (app sample {| method := HEAD; path := "/api/health"; body_error := None |})
    !! "Content-Type"%string =
    headers (app sample (as_get {| method := HEAD; path := "/api/health"; body_error := None |}))
      !! "Content-Type"%string /\
  body (app sample {| method := HEAD; path := "/api/health"; body_error := None |}) = Empty.
Proof.
  apply (head_as_get sample {| method := HEAD; path := "/api/health"; body_error := None |}).
  reflexivity.
Defined.

(** X17. A request other than OPTIONS whose body [express.json()] raises
    an error for is answered with the status of the error (500 when that
    is not from 400 to 599) and the report of the default error handler,
    whatever its method and its path: a GET request for [/api/health]
    with a body that is no JSON gets 400, not the health document. *)
Theorem body_error_status (p : Process) (req : Request) (st : Z) :
  method req <> OPTIONS -> body_error req = Some st ->
  status (app p req) = (if (400 <=? st) && (st <? 600) then st else 500) /\
  body (app p req) = (if decide (method req = HEAD) then Empty else ErrorReport).
Proof.
  intros Hm Hb. rewrite (app_body_error _ _ _ Hm Hb). unfold on_the_wire.
  destruct (method req); split; reflexivity.
Qed.

Lemma body_error_status_witness :
  status (app sample {| method := GET; path := "/api/health"; body_error := Some 400 |}) = 400 /\
  body (app sample {| method := GET; path := "/api/health"; body_error := Some 400 |}) =
    ErrorReport.
Proof.
  apply (body_error_status sample
           {| method := GET; path := "/api/health"; body_error := Some 400 |} 400);
    [discriminate | reflexivity].
Defined.



(** ** Routes *)





(** ** Time *)

Lemma run_cons s e es : run s (e :: es) = run (step s e) es.
Proof. reflexivity. Qed.

Lemma run_hr s es :
  hr_start (proc (run s es)) = hr_start (proc s) /\
  hr_now (proc (run s es)) = hr_now (proc s) + total_elapsed es.
Proof.
  revert s. induction es as [|e es IH]; intros s.
  - split; [reflexivity|]. change (total_elapsed []) with 0. cbn [run fold_left]. lia.
  - rewrite run_cons. destruct (IH (step s e)) as [-> ->].
    change (total_elapsed (e :: es))
      with (match e with Elapse ns => ns + total_elapsed es | _ => total_elapsed es end).
    destruct e; cbn [step proc on_process elapse set_clock set_env unset_env write_file
                     remove_file make_dir remove_dir hr_start hr_now];
      split; try reflexivity; lia.
Qed.

(** X7. After any list of events, the uptime GET /api/health reports is
    the double of the nanoseconds from the start of the process to the
    events plus those that passed during them, divided by 1e9: setting
    the wall clock, changing the environment or writing files does not
    move it. *)
Theorem uptime_adds_elapsed (s : Server) (es : list Event) (req : Request) :
  method req = GET -> path req = "/api/health"%string ->
  reaches_routes (proc (run s es)) req ->
  uptime_of (respond (run s es) req) =
    Some (JS.Double.div
            (JS.Double.of_Z (hr_now (proc s) - hr_start (proc s) + total_elapsed es))
            (inject_Z 1000000000)).
Proof.
  intros Hm Hp Hr. unfold respond. rewrite (app_health _ _ Hm Hp Hr).
  unfold uptime_of. rewrite health_body. cbn [JSON.get]. 
  unfold uptime. destruct (run_hr s es) as [-> ->].
  replace (hr_now (proc s) + total_elapsed es - hr_start (proc s))
    with (hr_now (proc s) - hr_start (proc s) + total_elapsed es) by lia.
  reflexivity.
Qed.

Lemma uptime_adds_elapsed_witness :
  uptime_of (respond (run (start sample)
                        [Elapse 1500000000; SetClock 0; SetEnv "NODE_ENV" "test";
                         Elapse 1000000000]) GET_health) =
    Some (JS.Double.div
            (JS.Double.of_Z (hr_now (proc (start sample)) - hr_start (proc (start sample)) +
                             total_elapsed [Elapse 1500000000; SetClock 0;
                                            SetEnv "NODE_ENV" "test"; Elapse 1000000000]))
            (inject_Z 1000000000)).
Proof.
  apply (uptime_adds_elapsed (start sample)
           [Elapse 1500000000; SetClock 0; SetEnv "NODE_ENV" "test"; Elapse 1000000000]
           GET_health); reflexivity.
Defined.

(** X13. Only the route [/api/health] reads [process.uptime()]: the
    answer to a request whose path that route does not match is not
    changed by the passing of time on the monotonic clock. *)
Theorem only_health_reads_uptime (p : Process) (ns : Z) (req : Request) :
  route_matches "/api/health" (path req) = false ->
  app (elapse ns p) req = app p req.
Proof.
  intros H. rewrite !app_front, !pass_middleware.
  assert (Es : static "public" (elapse ns p) req res_at_routes =
               static "public" p req res_at_routes) by reflexivity.
  rewrite Es. unfold dispatch. cbn [pass]. unfold get. rewrite H.
  reflexivity.
Qed.

Lemma only_health_reads_uptime_witness :
  app (elapse 1000000000 sample) GET_info = app sample GET_info.
Proof. apply (only_health_reads_uptime sample 1000000000 GET_info). reflexivity. Defined.

(** ** Ports written in decimal *)

Module PortFacts.

Import DateFacts JS.Number.

Lemma decimal_fuel_step f n k :
  decimal_fuel (S f) n k =
    if n <? 10 then String (digit (n mod 10)) k
    else decimal_fuel f (n / 10) (String (digit (n mod 10)) k).
Proof. reflexivity. Qed.

Lemma digit_in_digit d : 0 <= d <= 9 -> digit_in 10 (digit d) = Some d.
Proof. intros H. each_digit H. Qed.

Lemma digit_no_space d k :
  0 <= d <= 9 ->
  drop_any white_space (String (digit d) k) = None /\
  drop_any (reverse <$> white_space) (String (digit d) k) = None.
Proof.
  intros H. apply digit_cases in H.
  repeat (destruct H as [H|H]); subst d; split; reflexivity.
Qed.

Lemma digit_no_letter d :
  0 <= d <= 9 ->
  Ascii.eqb (digit d) "+" = false /\ Ascii.eqb (digit d) "-" = false /\
  Ascii.eqb (digit d) "I" = false /\
  Ascii.eqb (digit d) "x" = false /\ Ascii.eqb (digit d) "X" = false /\
  Ascii.eqb (digit d) "o" = false /\ Ascii.eqb (digit d) "O" = false /\
  Ascii.eqb (digit d) "b" = false /\ Ascii.eqb (digit d) "B" = false.
Proof.
  intros H. apply digit_cases in H.
  repeat (destruct H as [H|H]); subst d; repeat split.
Qed.

Lemma decimal_fuel_digits f n k :
  digits_only k \/ (k = ""%string /\ f <> 0%nat) -> digits_only (decimal_fuel f n k).
Proof.
  revert n k. induction f as [|f IH]; intros n k H.
  - destruct H as [H|[_ H]]; [exact H|congruence].
  - assert (Hd : 0 <= n mod 10 <= 9) by (Z.div_mod_to_equations; lia).
    assert (Hk : digits_only (String (digit (n mod 10)) k)).
    { destruct H as [H|[-> _]]; [now apply digits_more|now apply digits_one]. }
    rewrite decimal_fuel_step. destruct (n <? 10); [exact Hk|].
    apply IH. now left.
Qed.

Lemma decimal_digits_only n : 0 <= n -> digits_only (decimal n).
Proof.
  intros Hn. unfold decimal. destruct (Z.ltb_spec n 0); [lia|].
  apply decimal_fuel_digits. right. split; [reflexivity|discriminate].
Qed.

(** Reading the digits gives the number back. *)
Lemma take_digits_digit d k acc count :
  0 <= d <= 9 ->
  take_digits 10 (String (digit d) k) acc count = take_digits 10 k (10 * acc + d) (count + 1).
Proof. intros H. cbn [take_digits]. now rewrite digit_in_digit. Qed.

Lemma decimal_fuel_take f n k :
  0 <= n < 2 ^ Z.of_nat (S f) ->
  exists m, 0 < m /\
    forall acc count,
      take_digits 10 (decimal_fuel (S f) n k) acc count =
        take_digits 10 k (acc * 10 ^ m + n) (count + m).
Proof.
  revert n k. induction f as [|f IH]; intros n k Hn.
  - exists 1. split; [lia|]. intros acc count.
    change (2 ^ Z.of_nat 1) with 2 in Hn.
    rewrite decimal_fuel_step. destruct (Z.ltb_spec n 10); [|lia].
    rewrite take_digits_digit by (Z.div_mod_to_equations; lia).
    f_equal. change (10 ^ 1) with 10. Z.div_mod_to_equations; lia.
  - rewrite decimal_fuel_step. destruct (Z.ltb_spec n 10) as [H10|H10].
    + exists 1. split; [lia|]. intros acc count.
      rewrite take_digits_digit by (Z.div_mod_to_equations; lia).
      f_equal. change (10 ^ 1) with 10. Z.div_mod_to_equations; lia.
    + rewrite (Nat2Z.inj_succ (S f)), Z.pow_succ_r in Hn by lia.
      assert (Hq : 0 <= n / 10 < 2 ^ Z.of_nat (S f)) by (Z.div_mod_to_equations; lia).
      destruct (IH (n / 10) (String (digit (n mod 10)) k) Hq) as (m & Hm & E).
      exists (Z.succ m). split; [lia|]. intros acc count.
      rewrite E, take_digits_digit by (Z.div_mod_to_equations; lia).
      f_equal; [|lia]. rewrite Z.pow_succ_r by lia.
      generalize (10 ^ m). intros X. Z.div_mod_to_equations. lia.
Qed.

Lemma take_digits_decimal n :
  0 <= n -> exists m, 0 < m /\ take_digits 10 (decimal n) 0 0 = (n, m, ""%string).
Proof.
  intros Hn. unfold decimal. destruct (Z.ltb_spec n 0); [lia|].
  set (f := Z.to_nat (Z.log2 n)).
  assert (Hb : 0 <= n < 2 ^ Z.of_nat (S f)).
  { split; [assumption|]. subst f.
    rewrite Nat2Z.inj_succ, Z2Nat.id by apply Z.log2_nonneg.
    destruct (Z.eq_dec n 0) as [->|]; [reflexivity|].
    apply Z.log2_spec. lia. }
  destruct (decimal_fuel_take f n "" Hb) as (m & Hm & E).
  exists m. split; [exact Hm|]. rewrite E. cbn [take_digits].
  replace (0 * 10 ^ m + n) with n by lia. now replace (0 + m) with m by lia.
Qed.

(** [trim] leaves a string of digits as it is. *)
Lemma reverse_onto_app a b acc :
  reverse_onto (a +:+ b) acc = reverse_onto b (reverse_onto a acc).
Proof.
  revert acc. induction a as [|c a IH]; intros acc; [reflexivity|].
  rewrite append_cons. cbn [reverse_onto]. apply IH.
Qed.

Lemma reverse_onto_twice s : forall a b,
  reverse_onto (reverse_onto s a) b = reverse_onto a (s +:+ b).
Proof.
  induction s as [|c s IH]; intros a b; [reflexivity|].
  cbn [reverse_onto]. rewrite IH. reflexivity.
Qed.

Lemma append_empty (s : string) : s +:+ "" = s.
Proof. induction s as [|c s IH]; [reflexivity|]. rewrite append_cons. now rewrite IH. Qed.

Lemma reverse_twice s : reverse (reverse s) = s.
Proof. unfold reverse. rewrite reverse_onto_twice. cbn [reverse_onto]. apply append_empty. Qed.

Lemma digits_only_first s :
  digits_only s -> exists d k, 0 <= d <= 9 /\ s = String (digit d) k.
Proof. destruct 1; eauto. Qed.

Lemma digits_only_reverse s : forall acc,
  digits_only s -> exists d k, 0 <= d <= 9 /\ reverse_onto s acc = String (digit d) k.
Proof.
  intros acc H. revert acc. induction H as [d Hd|d k Hd _ IH]; intros acc.
  - exists d, acc. split; [exact Hd|reflexivity].
  - cbn [reverse_onto]. apply IH.
Qed.

Lemma strip_left_none fuel ws s : drop_any ws s = None -> strip_left fuel ws s = s.
Proof. intros H. destruct fuel; [reflexivity|]. cbn [strip_left]. now rewrite H. Qed.

Lemma trim_digits s : digits_only s -> trim s = s.
Proof.
  intros H. unfold trim.
  destruct (digits_only_first s H) as (d & k & Hd & E).
  assert (E1 : strip_left (String.length s) white_space s = s).
  { apply strip_left_none. rewrite E. exact (proj1 (digit_no_space d k Hd)). }
  rewrite E1.
  destruct (digits_only_reverse s "" H) as (d' & k' & Hd' & E').
  fold (reverse s) in E'.
  rewrite strip_left_none by (rewrite E'; exact (proj2 (digit_no_space d' k' Hd'))).
  apply reverse_twice.
Qed.

(** A decimal number reads as itself. *)
Lemma literal_digits s n m :
  digits_only s -> 0 < m -> take_digits 10 s 0 0 = (n, m, ""%string) ->
  literal s = Decimal false n 0.
Proof.
  intros H Hm Ht.
  assert (Es : signed_decimal false s = Decimal false n 0).
  { unfold signed_decimal.
    assert (Ei : String.eqb s "Infinity" = false).
    { destruct H as [d Hd|d k Hd _]; cbn [String.eqb];
        destruct (digit_no_letter d Hd) as (_ & _ & -> & _); reflexivity. }
    rewrite Ei. unfold unsigned_decimal. rewrite Ht.
    destruct (Z.eqb_spec (m + 0) 0); [lia|]. reflexivity. }
  destruct H as [d Hd|d k Hd Hk].
  - unfold literal. destruct (digit_no_letter d Hd) as (-> & -> & _). exact Es.
  - unfold literal. destruct (digit_no_letter d Hd) as (-> & -> & _).
    destruct (digits_only_first k Hk) as (x & r & Hx & ->).
    destruct (digit_no_letter x Hx) as (_ & _ & _ & -> & -> & -> & -> & -> & ->).
    rewrite !andb_false_r. exact Es.
Qed.

Lemma read_decimal n : 0 <= n -> read (decimal n) = Decimal false n 0.
Proof.
  intros Hn. unfold read. rewrite trim_digits by now apply decimal_digits_only.
  destruct (take_digits_decimal n Hn) as (m & Hm & E).
  now apply (literal_digits _ n m); [apply decimal_digits_only| |].
Qed.

(** The endpoint of a port written in decimal. *)
Lemma listen_number_port x n :
  (x == inject_Z n)%Q -> 0 < n <= 65535 -> listen_number x = Some (Port n).
Proof.
  intros Hx Hn. unfold listen_number, JS.Double.is_integer.
  assert (Ef : Qfloor x = n) by (rewrite (Qfloor_comp _ _ Hx); apply Qfloor_Z).
  rewrite Ef.
  assert (E1 : Qeq_bool x (inject_Z n) = true) by now apply Qeq_bool_iff.
  assert (E2 : Qle_bool 0 x = true).
  { apply Qle_bool_iff. rewrite Hx. rewrite <- (Zle_Qle 0). lia. }
  assert (E3 : Qle_bool x (inject_Z 65535) = true).
  { apply Qle_bool_iff. rewrite Hx. rewrite <- Zle_Qle. lia. }
  assert (E4 : Qeq_bool x 0 = false).
  { destruct (Qeq_bool x 0) eqn:E; [|reflexivity]. apply Qeq_bool_iff in E.
    rewrite Hx in E. unfold Qeq in E. cbn in E. lia. }
  now rewrite E1, E2, E3, E4.
Qed.

Lemma listen_number_above x : (inject_Z 65536 <= x)%Q -> listen_number x = None.
Proof.
  intros Hx. unfold listen_number.
  assert (E : Qle_bool x (inject_Z 65535) = false).
  { destruct (Qle_bool x (inject_Z 65535)) eqn:E; [|reflexivity]. apply Qle_bool_iff in E.
    pose proof (Qle_trans _ _ _ Hx E) as C. rewrite <- Zle_Qle in C. lia. }
  rewrite E. now rewrite andb_false_r.
Qed.

Lemma listen_decimal n :
  0 <= n ->
  listen (Str (decimal n)) =
    if n =? 0 then Some AnyPort else if n <=? 65535 then Some (Port n) else None.
Proof.
  intros Hn. cbn [listen]. unfold listen_string. rewrite (read_decimal n Hn).
  unfold rounds_to_zero. destruct (Z.eqb_spec n 0) as [->|Hz]; [reflexivity|].
  assert (E1 : (0 + (Z.log2 n + 3) / 3 <? -330) = false).
  { apply Z.ltb_ge. pose proof (Z.log2_nonneg n).
    assert (0 <= (Z.log2 n + 3) / 3) by (apply Z.div_pos; lia). lia. }
  rewrite E1. change (0 <? 0) with false. change (30 <? 0) with false. cbv iota.
  unfold value. change (0 <=? 0) with true. cbv iota.
  replace (n * 10 ^ 0) with n by (rewrite Z.pow_0_r; lia).
  destruct (Z.leb_spec n 65535) as [Hs|Hs].
  - apply listen_number_port; [|lia]. apply DoubleFacts.round_integer.
    split; [lia|]. apply Z.le_lt_trans with 65535; [exact Hs|reflexivity].
  - apply listen_number_above.
    assert (E : (JS.Double.round (inject_Z 65536) == inject_Z 65536)%Q).
    { apply DoubleFacts.round_integer. split; reflexivity. }
    rewrite <- E. apply DoubleFacts.round_mono. rewrite <- Zle_Qle. lia.
Qed.

End PortFacts.

Lemma PORT_cases p :
  PORT p =
    match env p !! "PORT"%string with
    | Some v => if String.eqb v "" then Num 3000 else Str v
    | None => Num 3000
    end.
Proof. apply or_prop_cases. Qed.

Lemma run_stdout s es : stdout (run s es) = stdout s.
Proof.
  revert s. induction es as [|e es IH]; intros s; [reflexivity|].
  rewrite run_cons. now rewrite IH.
Qed.

(** X9. The server writes its two lines when [app.listen] accepts [PORT],
    and none when it throws: the first line ends with the text of [PORT]
    when the variable is set and not empty, otherwise with 3000, the
    second with the environment name. No later event adds a line. *)
Theorem startup_lines_report (p : Process) (es : list Event) :
  stdout (run (start p) es) =
    match listen (PORT p) with
    | Some _ =>
        [ "🚀 Simple Blog App server running on port " +:+
            match env p !! "PORT"%string with
            | Some v => if String.eqb v "" then "3000" else v
            | None => "3000"
            end;
          "📍 Environment: " +:+
            match env p !! "NODE_ENV"%string with
            | Some v => if String.eqb v "" then "development" else v
            | None => "development"
            end ]
    | None => []
    end.
Proof.
  rewrite run_stdout. unfold start. cbn [stdout].
  destruct (listen (PORT p)); [|reflexivity].
  rewrite environment_is_string, environment_name_cases, PORT_cases. cbn [to_string].
  destruct (env p !! "PORT"%string) as [v|]; [|reflexivity].
  now destruct (String.eqb v "").
Qed.

(** X11. With [PORT] set to a number that is not negative, written in
    decimal, [app.listen] is given that text. From 1 to 65535 it is that
    port and the startup line names it; 0, which is a string and so not
    replaced by 3000, is any port the operating system chooses; above
    65535 [listen] throws and no line is written. *)
Theorem port_number_round_trip (p : Process) (n : Z) :
  0 <= n ->
  listening (start (set_env "PORT" (decimal n) p)) = Str (decimal n) /\
  listen (listening (start (set_env "PORT" (decimal n) p))) =
    (if n =? 0 then Some AnyPort else if n <=? 65535 then Some (Port n) else None) /\
  (n <= 65535 ->
   stdout (start (set_env "PORT" (decimal n) p)) !! 0%nat =
     Some ("🚀 Simple Blog App server running on port " +:+ decimal n)) /\
  (65535 < n -> stdout (start (set_env "PORT" (decimal n) p)) = []).
Proof.
  intros Hn.
  assert (Hne : String.eqb (decimal n) "" = false).
  { destruct (PortFacts.digits_only_first _ (PortFacts.decimal_digits_only n Hn))
      as (d & k & _ & ->). reflexivity. }
  assert (E : PORT (set_env "PORT" (decimal n) p) = Str (decimal n)).
  { rewrite PORT_cases. cbn [env set_env]. now rewrite lookup_insert_eq, Hne. }
  unfold start. cbn [listening stdout]. rewrite E, (PortFacts.listen_decimal n Hn).
  split; [reflexivity|]. split; [reflexivity|]. split; intros H.
  - destruct (Z.eqb_spec n 0); [reflexivity|].
    destruct (Z.leb_spec n 65535); [reflexivity|lia].
  - destruct (Z.eqb_spec n 0); [lia|].
    destruct (Z.leb_spec n 65535); [lia|reflexivity].
Qed.

Lemma port_number_round_trip_witness :
  listening (start (set_env "PORT" (decimal 70000) sample)) = Str (decimal 70000) /\
  listen (listening (start (set_env "PORT" (decimal 70000) sample))) =
    (if 70000 =? 0 then Some AnyPort else if 70000 <=? 65535 then Some (Port 70000) else None) /\
  (70000 <= 65535 ->
   stdout (start (set_env "PORT" (decimal 70000) sample)) !! 0%nat =
     Some ("🚀 Simple Blog App server running on port " +:+ decimal 70000)) /\
  (65535 < 70000 -> stdout (start (set_env "PORT" (decimal 70000) sample)) = []).
Proof. apply (port_number_round_trip sample 70000). lia. Defined.
